(** * lissajouschord: the note lookup and the curve-to-solid pipeline of
    [lissajous_generator.py]

    The Python floats of the program are modelled by real numbers: the
    arithmetic is exact, and the one float value that is not a number, the
    NaN that numpy produces for [0/0] and for [arccos] outside [-1, 1], is
    modelled by [None].  Where a result depends on the rounding of doubles,
    the number of samples, the sampler is given a second time with every
    operation followed by a rounding (module [Binary64]); with the identity
    as rounding it is the exact sampler.  Strings are ASCII strings. *)

From Stdlib Require Import Reals String Ascii List ZArith Lia Lra Psatz Bool.
From Stdlib Require Import R_Ifp Ratan RNsatz.
Import ListNotations.

Local Open Scope string_scope.
Local Open Scope R_scope.

(** ** Python string operations used by the note lookup *)

Module PyStr.

(** [str.upper] on one ASCII character. *)
Definition upper_char (c : ascii) : ascii :=
  let n := nat_of_ascii c in
  if (andb (97 <=? n) (n <=? 122))%nat then ascii_of_nat (n - 32) else c.

(** [s.upper()] *)
Fixpoint upper (s : string) : string :=
  match s with
  | EmptyString => EmptyString
  | String c s' => String (upper_char c) (upper s')
  end.

(** [s.startswith(p)] *)
Fixpoint startswith (p s : string) : bool :=
  match p, s with
  | EmptyString, _ => true
  | String _ _, EmptyString => false
  | String a p', String b s' => andb (Ascii.eqb a b) (startswith p' s')
  end.

(** The left-to-right scan of [s.replace(old, new)] for a non-empty [old]:
    [skip] is the number of characters of a matched occurrence still to be
    dropped. *)
Fixpoint replace_from (old new : string) (skip : nat) (s : string) : string :=
  match s with
  | EmptyString => EmptyString
  | String c s' =>
      match skip with
      | S k => replace_from old new k s'
      | O =>
          if startswith old s
          then new ++ replace_from old new (String.length old - 1) s'
          else String c (replace_from old new O s')
      end
  end.

(** [s.replace(old, new)]; every call of the program has a two-character
    [old]. *)
Definition replace (old new s : string) : string :=
  replace_from old new O s.

(** [s[i:]] *)
Fixpoint drop (i : nat) (s : string) : string :=
  match i, s with
  | O, _ => s
  | S _, EmptyString => EmptyString
  | S k, String _ s' => drop k s'
  end.

End PyStr.

(** ** The note table *)

(** [NOTE_FREQUENCIES], in the insertion order of the dict literal. *)
Definition NOTE_FREQUENCIES : list (string * R) :=
  [ ("C4", 261.63);
    ("C#4", 277.18); ("Db4", 277.18);
    ("D4", 293.66);
    ("D#4", 311.13); ("Eb4", 311.13);
    ("E4", 329.63);
    ("F4", 349.23);
    ("F#4", 369.99); ("Gb4", 369.99);
    ("G4", 392.00);
    ("G#4", 415.30); ("Ab4", 415.30);
    ("A4", 440.00);
    ("A#4", 466.16); ("Bb4", 466.16);
    ("B4", 493.88);
    ("C5", 523.25);
    ("D5", 587.33);
    ("E5", 659.25);
    ("F5", 698.46);
    ("G5", 783.99);
    ("A5", 880.00);
    ("B5", 987.77) ].

(** [d.get(key)] on a dict held as an association list. *)
Fixpoint dict_get {V : Type} (d : list (string * V)) (key : string) : option V :=
  match d with
  | [] => None
  | (k, v) :: d' => if String.eqb k key then Some v else dict_get d' key
  end.

(** [list(d.keys())] *)
Definition dict_keys {V : Type} (d : list (string * V)) : list string :=
  map fst d.

(** The chain of [upper] and [replace] calls on the first line of
    [get_note_frequency]. *)
Definition normalize (note_name : string) : string :=
  PyStr.replace "Fb" "E"
    (PyStr.replace "Cb" "B"
      (PyStr.replace "E#" "F"
        (PyStr.replace "B#" "C" (PyStr.upper note_name)))).

(** The [if]/[elif] that rewrites the accidental at index 1. *)
Definition fix_accidental (note_name : string) : string :=
  match note_name with
  | String c0 (String c1 rest) =>
      if andb (2 <? String.length note_name)%nat (Ascii.eqb c1 "#")
      then String c0 (String "#" (PyStr.drop 2 note_name))
      else if andb (2 <? String.length note_name)%nat (Ascii.eqb c1 "B")
      then String c0 (String "b" (PyStr.drop 2 note_name))
      else note_name
  | _ => note_name
  end.

Definition get_note_frequency (note_name : string) : option R :=
  dict_get NOTE_FREQUENCIES (fix_accidental (normalize note_name)).

(** ** numpy arrays and vectors *)

Definition vec3 : Type := (R * R * R)%type.
Definition vec4 : Type := (R * R * R * R)%type.
(** A 4x4 array, as its four rows. *)
Definition mat4 : Type := (vec4 * vec4 * vec4 * vec4)%type.
(** A 3x3 array, as its three rows. *)
Definition mat3 : Type := (vec3 * vec3 * vec3)%type.

Module Np.

(** [math.ceil] / the ceiling numpy takes of the length of a range. *)
Definition ceil (x : R) : Z := (- Int_part (- x))%Z.

(** [np.arange(start, stop, step)]: [ceil((stop - start) / step)] values
    (none when that is not positive), the [i]-th being [start + i * step]. *)
Definition arange (start stop step : R) : list R :=
  map (fun i => start + INR i * step)
      (seq 0 (Z.to_nat (ceil ((stop - start) / step)))).

(** [np.vstack([x, y, z]).T]: one row per sample. *)
Fixpoint vstack_T (x y z : list R) : list vec3 :=
  match x, y, z with
  | a :: x', b :: y', c :: z' => (a, b, c) :: vstack_T x' y' z'
  | _, _, _ => []
  end.

Definition sub (a b : vec3) : vec3 :=
  let '(a0, a1, a2) := a in let '(b0, b1, b2) := b in
  (a0 - b0, a1 - b1, a2 - b2).

Definition add (a b : vec3) : vec3 :=
  let '(a0, a1, a2) := a in let '(b0, b1, b2) := b in
  (a0 + b0, a1 + b1, a2 + b2).

(** [v / k] for a scalar [k] that is not zero. *)
Definition div (v : vec3) (k : R) : vec3 :=
  let '(v0, v1, v2) := v in (v0 / k, v1 / k, v2 / k).

Definition dot (a b : vec3) : R :=
  let '(a0, a1, a2) := a in let '(b0, b1, b2) := b in
  a0 * b0 + a1 * b1 + a2 * b2.

Definition cross (a b : vec3) : vec3 :=
  let '(a0, a1, a2) := a in let '(b0, b1, b2) := b in
  (a1 * b2 - a2 * b1, a2 * b0 - a0 * b2, a0 * b1 - a1 * b0).

(** [np.linalg.norm] *)
Definition norm (v : vec3) : R := sqrt (dot v v).

(** [np.arccos]: NaN outside [-1, 1]. *)
Definition arccos (x : R) : option R :=
  if Rle_dec (-1) x then if Rle_dec x 1 then Some (acos x) else None
  else None.

(** [np.eye(4)] *)
Definition eye4 : mat4 :=
  ((1, 0, 0, 0), (0, 1, 0, 0), (0, 0, 1, 0), (0, 0, 0, 1)).

(** [M[:3, :3]] *)
Definition block33 (M : mat4) : mat3 :=
  let '((a00, a01, a02, _), (a10, a11, a12, _), (a20, a21, a22, _), _) := M in
  ((a00, a01, a02), (a10, a11, a12), (a20, a21, a22)).

(** [M[:3, :3] = B] *)
Definition set_block33 (M : mat4) (B : mat3) : mat4 :=
  let '((_, _, _, a03), (_, _, _, a13), (_, _, _, a23), r3) := M in
  let '((b00, b01, b02), (b10, b11, b12), (b20, b21, b22)) := B in
  ((b00, b01, b02, a03), (b10, b11, b12, a13), (b20, b21, b22, a23), r3).

(** [M[:3, 3] = v] *)
Definition set_col3 (M : mat4) (v : vec3) : mat4 :=
  let '((a00, a01, a02, _), (a10, a11, a12, _), (a20, a21, a22, _), r3) := M in
  let '(v0, v1, v2) := v in
  ((a00, a01, a02, v0), (a10, a11, a12, v1), (a20, a21, a22, v2), r3).

(** [M[:3, 3]] *)
Definition col3 (M : mat4) : vec3 :=
  let '((_, _, _, a03), (_, _, _, a13), (_, _, _, a23), _) := M in
  (a03, a13, a23).

(** [M[3, :]] *)
Definition row3 (M : mat4) : vec4 := snd M.

(** The product of a 3x3 array and a vector. *)
Definition mat3_mul_vec (B : mat3) (v : vec3) : vec3 :=
  let '(r0, r1, r2) := B in (dot r0 v, dot r1 v, dot r2 v).

Definition transpose3 (B : mat3) : mat3 :=
  let '((b00, b01, b02), (b10, b11, b12), (b20, b21, b22)) := B in
  ((b00, b10, b20), (b01, b11, b21), (b02, b12, b22)).

Definition mat3_mul (A B : mat3) : mat3 :=
  let '(r0, r1, r2) := A in
  let '(c0, c1, c2) := transpose3 B in
  ((dot r0 c0, dot r0 c1, dot r0 c2),
   (dot r1 c0, dot r1 c1, dot r1 c2),
   (dot r2 c0, dot r2 c1, dot r2 c2)).

Definition eye3 : mat3 := ((1, 0, 0), (0, 1, 0), (0, 0, 1)).

Definition det3 (B : mat3) : R :=
  let '(r0, r1, r2) := B in dot r0 (cross r1 r2).

End Np.

(** ** The trimesh calls of the program *)

Module Trimesh.

(** [trimesh.transformations.unit_vector]: the vector divided by its norm, in
    floats; the zero vector gives [0/0], an array of NaN. *)
Definition unit_vector (data : vec3) : option vec3 :=
  if Req_dec_T (sqrt (Np.dot data data)) 0 then None
  else Some (Np.div data (sqrt (Np.dot data data))).

(** [trimesh.transformations.rotation_matrix(angle, direction)]: the library
    normalises [direction] with [unit_vector] and fills the matrix
    [diag(cosa, cosa, cosa, 1)], adds [outer(d, d) * (1 - cosa)] and the skew
    matrix of [d * sina] to its 3x3 block.  A NaN direction makes every entry
    of the block NaN: [None]. *)
Definition rotation_matrix (angle : R) (direction : vec3) : option mat4 :=
  let sina := sin angle in
  let cosa := cos angle in
  match unit_vector direction with
  | None => None
  | Some (d0, d1, d2) =>
      let k := 1 - cosa in
      let '(e0, e1, e2) := (d0 * sina, d1 * sina, d2 * sina) in
      Some ((cosa + d0 * d0 * k + 0, 0 + d0 * d1 * k + - e2, 0 + d0 * d2 * k + e1, 0),
            (0 + d1 * d0 * k + e2, cosa + d1 * d1 * k + 0, 0 + d1 * d2 * k + - e0, 0),
            (0 + d2 * d0 * k + - e1, 0 + d2 * d1 * k + e0, cosa + d2 * d2 * k + 0, 0),
            (0, 0, 0, 1))
  end.

(** A mesh, as the tree of library calls that built it.  The matrix given to
    [apply_transform] is [None] when it holds NaN entries. *)
#[warnings="-register-all"] Inductive mesh : Type :=
| cylinder (radius height : R) (sections : Z)
| icosphere (radius : R)
| apply_transform (m : mesh) (matrix : option mat4)
| concatenate (meshes : list mesh).

(** The number of primitive solids a mesh is made of; an empty mesh has none. *)
Fixpoint primitive_count (m : mesh) : nat :=
  match m with
  | cylinder _ _ _ => 1
  | icosphere _ => 1
  | apply_transform m' _ => primitive_count m'
  | concatenate ms => list_sum (map primitive_count ms)
  end.

(** The image of a point under a 4x4 affine matrix
    ([trimesh.transformations.transform_points]). *)
Definition transform_point (M : mat4) (p : vec3) : vec3 :=
  Np.add (Np.mat3_mul_vec (Np.block33 M) p) (Np.col3 M).

End Trimesh.

(** ** Console output and files *)

(** The lines the program prints. *)
Inductive message : Type :=
| MsgInvalidNotes (valid : list string)
| MsgGenerating (n1 : string) (w1 : R) (n2 : string) (w2 : R)
                (n3 : string) (w3 : R)
| MsgNoSegments
| MsgSaved (filename : string).

(** What a call can change: the console, and the files written, the last
    write first. *)
Record world : Type := World {
  stdout : list message;
  files : list (string * Trimesh.mesh)
}.

(** A computation that reads and changes the world. *)
Definition IO (A : Type) : Type := world -> A * world.

Definition ret {A : Type} (a : A) : IO A := fun w => (a, w).

Definition bind {A B : Type} (m : IO A) (k : A -> IO B) : IO B :=
  fun w => let '(a, w') := m w in k a w'.

Notation "x <- m ;; k" := (bind m (fun x => k))
  (at level 61, m at next level, right associativity).
Notation "m ;;; k" := (bind m (fun _ => k))
  (at level 61, right associativity).

Definition print (msg : message) : IO unit :=
  fun w => (tt, World (stdout w ++ [msg]) (files w)).

(** [mesh.export(filename)] *)
Definition export (m : Trimesh.mesh) (filename : string) : IO unit :=
  fun w => (tt, World (stdout w) ((filename, m) :: files w)).

(** ** The curve-to-solid pipeline *)

(** The keyword arguments of [create_lissajous_from_notes_3d]. *)
Record kwargs : Type := Kwargs {
  duration : R;
  amplitude_x : R;
  amplitude_y : R;
  amplitude_z : R;
  phase_x : R;
  phase_y : R;
  phase_z : R;
  tube_radius : R;
  cylinder_segments : Z;
  output_filename : string
}.

(** Their default values. *)
Definition defaults : kwargs :=
  Kwargs 0.05 1 1 1 0 0 0 0.05 16 "lissajous_3d_custom_notes.stl".

Definition sample_rate : R := 44100.0.
Definition step_size : R := 1.0 / sample_rate.

(** The vector [t] of sampling times. *)
Definition sample_times (duration : R) : list R :=
  Np.arange 0.0 (duration + step_size / 2) step_size.

(** One coordinate of the curve, [amplitude * np.sin(2 * np.pi * omega * t + phase)]. *)
Definition wave (amplitude omega phase : R) (t : list R) : list R :=
  map (fun ti => amplitude * sin (2 * PI * omega * ti + phase)) t.

(** The array [points] of the program. *)
Definition sample_points (omega_x omega_y omega_z : R) (kw : kwargs) : list vec3 :=
  let t := sample_times (duration kw) in
  let x := wave (amplitude_x kw) omega_x (phase_x kw) t in
  let y := wave (amplitude_y kw) omega_y (phase_y kw) t in
  let z := wave (amplitude_z kw) omega_z (phase_z kw) t in
  Np.vstack_T x y z.

(** [points[i]] *)
Definition point_at (points : list vec3) (i : nat) : vec3 :=
  nth i points (0, 0, 0).

(** [from_v], the axis of the cylinder the library builds. *)
Definition from_v : vec3 := (0, 0, 1).

(** The matrix [rotation_matrix] of the loop body: the angle is the
    [arccos] of the dot product as it is, the axis the cross product as it
    is. *)
Definition segment_rotation (to_v : vec3) : option mat4 :=
  match Np.arccos (Np.dot from_v to_v) with
  | None => None
  | Some angle => Trimesh.rotation_matrix angle (Np.cross from_v to_v)
  end.

(** [transform_matrix]: [np.eye(4)] with the rotation block and the
    translation column assigned. *)
Definition segment_transform (start_point end_point : vec3) : option mat4 :=
  let segment_vector := Np.sub end_point start_point in
  let segment_length := Np.norm segment_vector in
  let to_v := Np.div segment_vector segment_length in
  match segment_rotation to_v with
  | None => None
  | Some rotation_matrix =>
      let mid_point := Np.div (Np.add start_point end_point) 2 in
      Some (Np.set_col3 (Np.set_block33 Np.eye4 (Np.block33 rotation_matrix))
                        mid_point)
  end.

(** One turn of the loop over [i]: [all_meshes] after the turn. *)
Definition segment_step (points : list vec3) (tube_radius : R)
    (cylinder_segments : Z) (all_meshes : list Trimesh.mesh) (i : nat)
  : list Trimesh.mesh :=
  let start_point := point_at points i in
  let end_point := point_at points (i + 1) in
  let segment_vector := Np.sub end_point start_point in
  let segment_length := Np.norm segment_vector in
  if Rlt_dec segment_length 1e-6 then all_meshes
  else
    let cylinder_segment :=
      Trimesh.cylinder tube_radius segment_length cylinder_segments in
    let transformed_cylinder :=
      Trimesh.apply_transform cylinder_segment
        (segment_transform start_point end_point) in
    all_meshes ++ [transformed_cylinder].

(** The loop [for i in range(len(points) - 1)], from an empty [all_meshes]. *)
Definition build_segments (points : list vec3) (tube_radius : R)
    (cylinder_segments : Z) : list Trimesh.mesh :=
  fold_left (segment_step points tube_radius cylinder_segments)
            (seq 0 (length points - 1)) [].

(** The mesh the program exports: the sphere when no segment was built. *)
Definition assemble (all_meshes : list Trimesh.mesh) (tube_radius : R)
  : IO Trimesh.mesh :=
  match all_meshes with
  | [] =>
      print MsgNoSegments ;;;
      ret (Trimesh.icosphere (tube_radius / 2))
  | _ :: _ => ret (Trimesh.concatenate all_meshes)
  end.

(** [create_lissajous_from_notes_3d]; the result is [None] for Python's
    [None]. *)
Definition create_lissajous_from_notes_3d
    (note1_name note2_name note3_name : string) (kw : kwargs)
  : IO (option Trimesh.mesh) :=
  match get_note_frequency note1_name,
        get_note_frequency note2_name,
        get_note_frequency note3_name with
  | Some omega_x, Some omega_y, Some omega_z =>
      print (MsgGenerating note1_name omega_x note2_name omega_y
                           note3_name omega_z) ;;;
      let points := sample_points omega_x omega_y omega_z kw in
      let all_meshes :=
        build_segments points (tube_radius kw) (cylinder_segments kw) in
      final_mesh <- assemble all_meshes (tube_radius kw) ;;
      export final_mesh (output_filename kw) ;;;
      print (MsgSaved (output_filename kw)) ;;;
      ret (Some final_mesh)
  | _, _, _ =>
      print (MsgInvalidNotes (dict_keys NOTE_FREQUENCIES)) ;;;
      ret None
  end.

(** The world before a call. *)
Definition initial_world : world := World [] [].

(** ** Notions the properties are stated with *)

(** The Euclidean distance between two points, from their coordinates. *)
Definition distance (p q : vec3) : R :=
  let '(px, py, pz) := p in let '(qx, qy, qz) := q in
  sqrt ((qx - px) ^ 2 + (qy - py) ^ 2 + (qz - pz) ^ 2).

(** Whether the pair [(points[i], points[i+1])] is closer than [1e-6]. *)
Definition degenerate (points : list vec3) (i : nat) : bool :=
  if Rlt_dec (distance (point_at points i) (point_at points (i + 1))) 1e-6
  then true else false.

(** The number of consecutive pairs closer than [1e-6]. *)
Definition degenerate_count (points : list vec3) : nat :=
  length (filter (degenerate points) (seq 0 (length points - 1))).

(** The cylinder of height [distance], placed by the transform of the pair
    at [i]. *)
Definition segment_mesh (points : list vec3) (tube_radius : R)
    (cylinder_segments : Z) (i : nat) : Trimesh.mesh :=
  Trimesh.apply_transform
    (Trimesh.cylinder tube_radius
       (distance (point_at points i) (point_at points (i + 1)))
       cylinder_segments)
    (segment_transform (point_at points i) (point_at points (i + 1))).

(** The default call with the X and Y amplitudes set to zero: the curve runs
    along the Z axis. *)
Definition vertical_up : kwargs :=
  Kwargs 0.05 0 0 1 0 0 0 0.05 16 "lissajous_3d_custom_notes.stl".

(** The same with the Z amplitude negated: the curve starts downwards. *)
Definition vertical_down : kwargs :=
  Kwargs 0.05 0 0 (-1) 0 0 0 0.05 16 "lissajous_3d_custom_notes.stl".

(** A call with a duration of zero. *)
Definition zero_duration : kwargs :=
  Kwargs 0 1 1 1 0 0 0 0.05 16 "lissajous_3d_custom_notes.stl".

(** A call whose duration, amplitudes and tube radius are negative and whose
    cylinders have two sides. *)
Definition all_invalid : kwargs :=
  Kwargs (-1) (-1) (-1) (-1) 0 0 0 (-0.05) 2 "lissajous_3d_custom_notes.stl".

(** A call too short for a second sample. *)
Definition too_short : kwargs :=
  Kwargs 0.00001 1 1 1 0 0 0 0.05 16 "lissajous_3d_custom_notes.stl".

(** A string that starts with [c0] and then a character of [l]. *)
Definition head_in (c0 : ascii) (l : list ascii) (s : string) : Prop :=
  exists y r, s = String c0 (String y r) /\ In y l.

(** Equality of arrays, entry by entry. *)
Ltac entrywise :=
  repeat match goal with
         | |- (_, _) = (_, _) => apply (f_equal2 pair)
         end.

(** ** The sampler in binary64 arithmetic *)

(** The float operations of lines 88 to 100, each as the exact operation
    followed by a rounding [rnd]; [sinf] is the sine of the C library. *)
Module Binary64.

(** Half the distance from 1 to the next double. *)
Definition unit_roundoff : R := / 2 ^ 53.

(** What rounding to the nearest double ensures as long as nothing
    overflows or underflows: a relative error of at most [unit_roundoff]. *)
Definition rounding (rnd : R -> R) : Prop :=
  forall x, Rabs (rnd x - x) <= unit_roundoff * Rabs x.

(** The length numpy gives to [arange(start, stop, step)]: the ceiling of
    the quotient [(stop - start) / step] computed in doubles. *)
Definition arange_length (rnd : R -> R) (start stop step : R) : nat :=
  Z.to_nat (Np.ceil (rnd (rnd (stop - start) / step))).

(** [np.arange(start, stop, step)] on doubles: the first two values are
    [start] and [start + step], the others [start + i * delta] with
    [delta] the difference of the first two. *)
Definition arange (rnd : R -> R) (start stop step : R) : list R :=
  let next := rnd (start + step) in
  let delta := rnd (next - start) in
  map (fun i =>
         match i with
         | O => start
         | S O => next
         | _ => rnd (start + rnd (INR i * delta))
         end)
      (seq 0 (arange_length rnd start stop step)).

Definition step_size (rnd : R -> R) : R := rnd (1.0 / sample_rate).

(** The vector [t]. *)
Definition sample_times (rnd : R -> R) (duration : R) : list R :=
  arange rnd 0.0 (rnd (duration + rnd (step_size rnd / 2))) (step_size rnd).

(** [amplitude * np.sin(2 * np.pi * omega * t + phase)] *)
Definition wave (rnd sinf : R -> R) (amplitude omega phase : R)
    (t : list R) : list R :=
  map (fun ti =>
         rnd (amplitude
              * sinf (rnd (rnd (rnd (rnd (2 * rnd PI) * omega) * ti)
                           + phase))))
      t.

(** The array [points]. *)
Definition sample_points (rnd sinf : R -> R) (omega_x omega_y omega_z : R)
    (kw : kwargs) : list vec3 :=
  let t := sample_times rnd (duration kw) in
  let x := wave rnd sinf (amplitude_x kw) omega_x (phase_x kw) t in
  let y := wave rnd sinf (amplitude_y kw) omega_y (phase_y kw) t in
  let z := wave rnd sinf (amplitude_z kw) omega_z (phase_z kw) t in
  Np.vstack_T x y z.

(** A rounding that errs by a full unit roundoff, away from zero. *)
Definition round_away (x : R) : R := x * (1 + unit_roundoff).

End Binary64.

(** A call of 0.0256 s: 1128.96 steps. *)
Definition fractional_duration : kwargs :=
  Kwargs 0.0256 1 1 1 0 0 0 0.05 16 "lissajous_3d_custom_notes.stl".

(** A call of 0.00003 s: two samples. *)
Definition two_samples : kwargs :=
  Kwargs 0.00003 1 1 1 0 0 0 0.05 16 "lissajous_3d_custom_notes.stl".

(** ** The note prompt of the interactive caller *)

Module Prompt.

(** [c.isspace()] on an ASCII character: tab to carriage return, the four
    separators 28 to 31, and the blank. *)
Definition isspace (c : ascii) : bool :=
  let n := nat_of_ascii c in
  (orb (andb (9 <=? n) (n <=? 13))
       (orb (andb (28 <=? n) (n <=? 31)) (n =? 32)))%nat.

(** [c.isdigit()] on an ASCII character. *)
Definition isdigit (c : ascii) : bool :=
  let n := nat_of_ascii c in (andb (48 <=? n) (n <=? 57))%nat.

(** [c.isalpha()] on an ASCII character. *)
Definition isalpha (c : ascii) : bool :=
  let n := nat_of_ascii c in
  (orb (andb (65 <=? n) (n <=? 90)) (andb (97 <=? n) (n <=? 122)))%nat.

(** [s.lstrip()] *)
Fixpoint lstrip (s : string) : string :=
  match s with
  | EmptyString => EmptyString
  | String c s' => if isspace c then lstrip s' else s
  end.

(** [s.rstrip()] *)
Fixpoint rstrip (s : string) : string :=
  match s with
  | EmptyString => EmptyString
  | String c s' =>
      match rstrip s' with
      | EmptyString => if isspace c then EmptyString else String c EmptyString
      | r => String c r
      end
  end.

(** [s.strip()] *)
Definition strip (s : string) : string := rstrip (lstrip s).

(** [s[-1]] of a string that is not empty. *)
Fixpoint last_char (s : string) : option ascii :=
  match s with
  | EmptyString => None
  | String c EmptyString => Some c
  | String _ s' => last_char s'
  end.

(** [key in d] *)
Definition dict_mem {V : Type} (d : list (string * V)) (key : string) : bool :=
  match dict_get d key with Some _ => true | None => false end.

(** The lines the prompt writes. *)
Inductive prompt_message : Type :=
| AskNote (i : nat)
| MsgAssumeOctave (normalized_note : string)
| MsgNotRecognised (note_input : string).

(** The normalisation of the prompt: as in [get_note_frequency], but with
    upper-case ["CB"] and ["FB"]. *)
Definition normalize_input (note_input : string) : string :=
  PyStr.replace "FB" "E"
    (PyStr.replace "CB" "B"
      (PyStr.replace "E#" "F"
        (PyStr.replace "B#" "C" (PyStr.upper note_input)))).

(** One turn of the [while True] loop on the line read: the note appended to
    [notes] when the loop is left, and the lines printed. *)
Definition prompt_note (line : string)
  : option string * list prompt_message :=
  let note_input := strip line in
  let normalized_note := normalize_input note_input in
  let rejected := (None, [MsgNotRecognised note_input]) in
  if andb (1 <? String.length normalized_note)%nat
          (match last_char normalized_note with
           | Some c => isdigit c
           | None => false
           end)
  then
    if dict_mem NOTE_FREQUENCIES normalized_note
    then (Some normalized_note, [])
    else if andb (String.length normalized_note =? 1)%nat
                 (dict_mem NOTE_FREQUENCIES (normalized_note ++ "4"))
    then (Some (normalized_note ++ "4"), [MsgAssumeOctave normalized_note])
    else if andb (String.length normalized_note =? 2)%nat
                 (match normalized_note with
                  | String c0 (String c1 _) => andb (isalpha c0) (isdigit c1)
                  | _ => false
                  end)
    then
      match find (fun key => String.eqb (PyStr.upper key) normalized_note)
                 (dict_keys NOTE_FREQUENCIES) with
      | Some key => (Some key, [])
      | None => rejected
      end
    else rejected
  else rejected.

(** The [while True] loop for note [i] on the lines still to be read: the
    note and the lines left, or [None] when the input ends first
    ([input] raises [EOFError]); and what was written. *)
Fixpoint read_note (i : nat) (stdin : list string)
  : option (string * list string) * list prompt_message :=
  match stdin with
  | [] => (None, [AskNote i])
  | line :: rest =>
      match prompt_note line with
      | (Some note, out) => (Some (note, rest), AskNote i :: out)
      | (None, out) =>
          let '(r, out') := read_note i rest in
          (r, ((AskNote i :: out) ++ out')%list)
      end
  end.

(** The loop [for i in range(1, 4)]: the list [notes] and the lines left. *)
Definition read_notes (stdin : list string)
  : option (list string * list string) * list prompt_message :=
  match read_note 1 stdin with
  | (None, out1) => (None, out1)
  | (Some (note1, stdin1), out1) =>
      match read_note 2 stdin1 with
      | (None, out2) => (None, (out1 ++ out2)%list)
      | (Some (note2, stdin2), out2) =>
          match read_note 3 stdin2 with
          | (None, out3) => (None, (out1 ++ out2 ++ out3)%list)
          | (Some (note3, stdin3), out3) =>
              (Some ([note1; note2; note3], stdin3),
               (out1 ++ out2 ++ out3)%list)
          end
      end
  end.

End Prompt.

(** The keys of the table that the prompt can return: those without a
    lower-case letter. *)
Definition sharp_names : list string :=
  ["C4"; "C#4"; "D4"; "D#4"; "E4"; "F4"; "F#4"; "G4"; "G#4"; "A4"; "A#4";
   "B4"; "C5"; "D5"; "E5"; "F5"; "G5"; "A5"; "B5"]%string.

(** The upper-case forms of the flat names of the table. *)
Definition flat_names_upper : list string :=
  ["DB4"; "EB4"; "GB4"; "AB4"; "BB4"]%string.

(** A string without a lower-case ASCII letter. *)
Fixpoint no_lower (s : string) : Prop :=
  match s with
  | EmptyString => True
  | String c s' => PyStr.upper_char c = c /\ no_lower s'
  end.

(** ** Lookups of the table *)

Example lookup_lower_case :
  get_note_frequency "c4" = Some 261.63.
Proof. reflexivity. Qed.

Example lookup_flat_B :
  get_note_frequency "Bb4" = Some 466.16.
Proof. reflexivity. Qed.

Example lookup_sharp_E :
  get_note_frequency "e#5" = Some 698.46.
Proof. reflexivity. Qed.

(** ** The note lookup *)

Section NoteLookup.

Local Open Scope string_scope.

Lemma upper_app (s1 s2 : string) :
  PyStr.upper (s1 ++ s2) = PyStr.upper s1 ++ PyStr.upper s2.
Proof.
  induction s1 as [|c s1 IH]; simpl; [reflexivity | now rewrite IH].
Qed.

(** A replacement of a two-character [old] by a one-character [new] that
    cannot match at index 0 keeps the first character, and the second one
    stays in [l] or becomes [new]. *)
Lemma replace_head_in (a b n c0 : ascii) (l : list ascii) (s : string) :
  head_in c0 l s ->
  c0 <> a \/ ~ In b l ->
  head_in c0 (n :: l)
    (PyStr.replace (String a (String b "")) (String n "") s).
Proof.
  intros (y & r & -> & Hy) Hno.
  assert (Hfirst : (Ascii.eqb a c0 && (Ascii.eqb b y && true))%bool = false).
  { destruct (Ascii.eqb_spec a c0) as [->|]; [|reflexivity].
    destruct (Ascii.eqb_spec b y) as [->|]; [|reflexivity].
    destruct Hno as [Hno|Hno]; [now elim Hno | now elim Hno]. }
  unfold PyStr.replace, head_in.
  cbn [PyStr.replace_from PyStr.startswith]. rewrite Hfirst.
  destruct r as [|c r].
  - cbn [PyStr.replace_from PyStr.startswith]. rewrite andb_false_r.
    exists y, "". split; [reflexivity | now right].
  - cbn [PyStr.replace_from PyStr.startswith].
    destruct (Ascii.eqb a y && (Ascii.eqb b c && true))%bool.
    + cbn [append]. eexists n, _. split; [reflexivity | now left].
    + eexists y, _. split; [reflexivity | now right].
Qed.

(** No key of the table starts with C or F followed by a letter. *)
Lemma lookup_head_letter (c0 : ascii) (l : list ascii) (s : string) :
  head_in c0 l s ->
  c0 = "C"%char \/ c0 = "F"%char ->
  (forall y, In y l ->
     y = "B"%char \/ y = "C"%char \/ y = "E"%char \/ y = "F"%char) ->
  dict_get NOTE_FREQUENCIES (fix_accidental s) = None.
Proof.
  intros (y & r & -> & Hy) Hc Hl.
  specialize (Hl y Hy).
  destruct Hc as [-> | ->];
    destruct Hl as [-> | [-> | [-> | ->]]];
    destruct r; reflexivity.
Qed.

(** A name whose upper-case form is C or F, then B, then anything, is not
    found. *)
Lemma lookup_flat (c0 : ascii) (O : string) :
  c0 = "C"%char \/ c0 = "F"%char ->
  dict_get NOTE_FREQUENCIES
    (fix_accidental
       (PyStr.replace "Fb" "E"
          (PyStr.replace "Cb" "B"
             (PyStr.replace "E#" "F"
                (PyStr.replace "B#" "C" (String c0 (String "B" O)))))))
  = None.
Proof.
  intros Hc.
  assert (H0 : head_in c0 ["B"%char] (String c0 (String "B" O))).
  { exists "B"%char, O. split; [reflexivity | now left]. }
  apply (replace_head_in "B" "#" "C") in H0;
    [| left; destruct Hc; subst; discriminate].
  apply (replace_head_in "E" "#" "F") in H0;
    [| left; destruct Hc; subst; discriminate].
  apply (replace_head_in "C" "b" "B") in H0;
    [| right; cbn; intuition discriminate].
  apply (replace_head_in "F" "b" "E") in H0;
    [| right; cbn; intuition discriminate].
  apply (lookup_head_letter c0 _ _ H0 Hc).
  cbn. intuition (subst; auto).
Qed.

(** C10: for every octave suffix [o], the flat spellings Cb and Fb are not
    found, because the name is upper-cased before the replacements of "Cb"
    and "Fb" are tried, while B# and E# are looked up as C and F; in the
    octaves of the table, B#4, B#5, E#4 and E#5 get the frequencies of C4,
    C5, F4 and F5. *)
Theorem flat_enharmonics_not_found (o : string) :
  get_note_frequency ("Cb" ++ o) = None /\
  get_note_frequency ("Fb" ++ o) = None /\
  get_note_frequency ("B#" ++ o) = get_note_frequency ("C" ++ o) /\
  get_note_frequency ("E#" ++ o) = get_note_frequency ("F" ++ o) /\
  get_note_frequency "B#4" = Some 261.63%R /\
  get_note_frequency "B#5" = Some 523.25%R /\
  get_note_frequency "E#4" = Some 349.23%R /\
  get_note_frequency "E#5" = Some 698.46%R.
Proof.
  repeat split; try reflexivity.
  - unfold get_note_frequency, normalize. rewrite upper_app.
    apply lookup_flat. now left.
  - unfold get_note_frequency, normalize. rewrite upper_app.
    apply lookup_flat. now right.
Qed.

End NoteLookup.

(** ** The curve sampler *)

Section Sampler.

Lemma ceil_spec (x : R) : IZR (Np.ceil x) - 1 < x <= IZR (Np.ceil x).
Proof.
  unfold Np.ceil. rewrite opp_IZR.
  destruct (base_Int_part (- x)) as [H1 H2]. lra.
Qed.

Lemma ceil_unique (x : R) (z : Z) : IZR z - 1 < x <= IZR z -> Np.ceil x = z.
Proof.
  intros [H1 H2]. unfold Np.ceil.
  rewrite <- (Int_part_spec (- x) (- z)); [lia |].
  rewrite opp_IZR. lra.
Qed.

Lemma floor_spec (x : R) : IZR (Int_part x) <= x < IZR (Int_part x) + 1.
Proof. destruct (base_Int_part x). lra. Qed.

Lemma arange_length (start stop step : R) :
  length (Np.arange start stop step)
  = Z.to_nat (Np.ceil ((stop - start) / step)).
Proof. unfold Np.arange. now rewrite length_map, length_seq. Qed.

Lemma vstack_T_length (f g h : R -> R) (t : list R) :
  length (Np.vstack_T (map f t) (map g t) (map h t)) = length t.
Proof. induction t as [|a t IH]; simpl; [reflexivity | now rewrite IH]. Qed.

Lemma sample_points_length (wx wy wz : R) (kw : kwargs) :
  length (sample_points wx wy wz kw)
  = Z.to_nat (Np.ceil (duration kw * 44100 + 1 / 2)).
Proof.
  unfold sample_points, wave. rewrite vstack_T_length.
  unfold sample_times. rewrite arange_length. do 2 f_equal.
  unfold step_size, sample_rate. lra.
Qed.

Lemma vstack_T_map (f g h : R -> R) (t : list R) :
  Np.vstack_T (map f t) (map g t) (map h t)
  = map (fun ti => (f ti, g ti, h ti)) t.
Proof. induction t as [|a t IH]; simpl; [reflexivity | now rewrite IH]. Qed.

(** The point of the curve at time [ti]. *)
Lemma sample_points_map (wx wy wz : R) (kw : kwargs) :
  sample_points wx wy wz kw
  = map (fun ti =>
           (amplitude_x kw * sin (2 * PI * wx * ti + phase_x kw),
            amplitude_y kw * sin (2 * PI * wy * ti + phase_y kw),
            amplitude_z kw * sin (2 * PI * wz * ti + phase_z kw)))
        (sample_times (duration kw)).
Proof. unfold sample_points, wave. apply vstack_T_map. Qed.

(** [points[i]] is the point of the curve at time [i / 44100]. *)
Lemma point_at_sample (wx wy wz : R) (kw : kwargs) (i : nat) :
  (i < length (sample_points wx wy wz kw))%nat ->
  point_at (sample_points wx wy wz kw) i
  = (amplitude_x kw * sin (2 * PI * wx * (INR i * step_size) + phase_x kw),
     amplitude_y kw * sin (2 * PI * wy * (INR i * step_size) + phase_y kw),
     amplitude_z kw * sin (2 * PI * wz * (INR i * step_size) + phase_z kw)).
Proof.
  intros Hi. unfold point_at.
  rewrite sample_points_map in *. rewrite length_map in Hi.
  set (g := fun ti : R => _).
  rewrite (nth_indep _ (0, 0, 0) (g 0)) by now rewrite length_map.
  rewrite map_nth. unfold sample_times, Np.arange in *.
  rewrite length_map, length_seq in Hi.
  set (f := fun i : nat => _).
  rewrite (nth_indep _ 0 (f 0%nat)) by now rewrite length_map, length_seq.
  rewrite map_nth, seq_nth by assumption.
  unfold g, f. cbn [Nat.add].
  replace (0.0 + INR i * step_size) with (INR i * step_size) by lra.
  reflexivity.
Qed.

Lemma sample_times_head (D : R) :
  0 < D -> exists rest, sample_times D = 0 :: rest.
Proof.
  intros HD. unfold sample_times, Np.arange.
  set (x := (D + step_size / 2 - 0.0) / step_size).
  assert (Hx : x = D * 44100 + 1 / 2).
  { unfold x, step_size, sample_rate. lra. }
  destruct (ceil_spec x) as [_ Hc].
  assert (Hpos : (1 <= Np.ceil x)%Z).
  { apply le_IZR. apply Rnot_lt_le. intros Hlt.
    assert (IZR (Np.ceil x) <= 0).
    { apply IZR_le. apply lt_IZR in Hlt. lia. }
    nra. }
  destruct (Z.to_nat (Np.ceil x)) as [|n] eqn:En; [lia |].
  cbn [seq map]. eexists. f_equal. cbn [INR]. lra.
Qed.

(** The sample at [t = 0]. *)
Lemma sample_points_head (wx wy wz : R) (kw : kwargs) :
  0 < duration kw ->
  hd_error (sample_points wx wy wz kw)
  = Some (amplitude_x kw * sin (phase_x kw),
          amplitude_y kw * sin (phase_y kw),
          amplitude_z kw * sin (phase_z kw)).
Proof.
  intros HD. unfold sample_points.
  destruct (sample_times_head _ HD) as [rest ->].
  unfold wave. cbn [map Np.vstack_T hd_error].
  now rewrite !Rmult_0_r, !Rplus_0_l.
Qed.

End Sampler.

(** ** The sampler in doubles *)

Section SamplerBinary64.

Lemma unit_roundoff_small : 0 < Binary64.unit_roundoff < 1 / 1000000.
Proof.
  unfold Binary64.unit_roundoff. split.
  - apply Rinv_0_lt_compat. apply pow_lt. lra.
  - assert (H : 1000000 < 2 ^ 53) by (simpl; lra).
    unfold Rdiv. rewrite Rmult_1_l. apply Rinv_lt_contravar; [| exact H].
    apply Rmult_lt_0_compat; lra.
Qed.

Lemma eight_roundoffs : 8 * Binary64.unit_roundoff = / 2 ^ 50.
Proof.
  unfold Binary64.unit_roundoff.
  replace (2 ^ 53) with (8 * 2 ^ 50) by (simpl; ring).
  field; apply pow_nonzero; lra.
Qed.

(** Exact arithmetic is a rounding, and so is [round_away]. *)
Lemma rounding_exact : Binary64.rounding (fun x => x).
Proof.
  intros x. replace (x - x) with 0 by ring. rewrite Rabs_R0.
  pose proof unit_roundoff_small. pose proof (Rabs_pos x). nra.
Qed.

Lemma rounding_round_away : Binary64.rounding Binary64.round_away.
Proof.
  intros x. unfold Binary64.round_away.
  replace (x * (1 + Binary64.unit_roundoff) - x)
    with (Binary64.unit_roundoff * x) by ring.
  pose proof unit_roundoff_small.
  rewrite Rabs_mult, (Rabs_pos_eq Binary64.unit_roundoff) by lra. lra.
Qed.

Lemma scale_up (y k m c d : R) :
  0 < m <= k -> 0 <= c -> y * k <= c + k * d -> y * m <= c + m * d.
Proof.
  intros [Hm Hk] Hc H.
  destruct (Rle_dec d y) as [Hy | Hy].
  - assert ((y - d) * m <= (y - d) * k).
    { apply Rmult_le_compat_l; lra. }
    lra.
  - assert ((y - d) * m <= 0).
    { replace 0 with (0 * m) by ring. apply Rmult_le_compat_r; lra. }
    lra.
Qed.

Lemma scale_down (y k p c d : R) :
  0 < k <= p -> 0 < c -> c + k * d <= y * k -> c + p * d <= y * p.
Proof.
  intros [Hk Hp] Hc H.
  assert (Hpos : 0 < (y - d) * k) by lra.
  assert (Hy : 0 < y - d).
  { destruct (Rlt_dec 0 (y - d)) as [|Hn]; [assumption | exfalso].
    assert ((y - d) * k <= 0 * k) by (apply Rmult_le_compat_r; lra).
    lra. }
  assert ((y - d) * k <= (y - d) * p).
  { apply Rmult_le_compat_l; lra. }
  lra.
Qed.

Variable rnd : R -> R.
Hypothesis Hrnd : Binary64.rounding rnd.

Lemma rnd_nonneg (x : R) :
  0 <= x ->
  x * (1 - Binary64.unit_roundoff) <= rnd x
  <= x * (1 + Binary64.unit_roundoff).
Proof.
  intros Hx. pose proof (Hrnd x) as H.
  rewrite (Rabs_pos_eq x Hx) in H.
  unfold Rabs in H. destruct (Rcase_abs (rnd x - x)); lra.
Qed.

Lemma rnd_0 : rnd 0 = 0.
Proof. pose proof (rnd_nonneg 0). lra. Qed.

(** The quotient of which numpy takes the ceiling, computed in doubles, is
    within eight unit roundoffs of [D * 44100 + 1/2]. *)
Lemma quotient_error (D : R) :
  0 < D ->
  let s := Binary64.step_size rnd in
  let q := rnd (rnd (rnd (D + rnd (s / 2)) - 0.0) / s) in
  let X := D * 44100 in
  (X + 1 / 2) * (1 - 8 * Binary64.unit_roundoff) < q
  < (X + 1 / 2) * (1 + 8 * Binary64.unit_roundoff).
Proof.
  intros HD s q X.
  pose proof unit_roundoff_small as Hu.
  set (u := Binary64.unit_roundoff) in *.
  set (m := 1 - u). set (p := 1 + u).
  assert (Hm : 0 < m <= 1) by (unfold m; lra).
  assert (Hp : 1 <= p) by (unfold p; lra).
  assert (Hmp : m * p <= 1) by (unfold m, p; nra).
  assert (Hs : 1 / 44100 * m <= s <= 1 / 44100 * p).
  { unfold s, Binary64.step_size, sample_rate.
    replace (1.0 / 44100.0) with (1 / 44100) by lra.
    apply rnd_nonneg. lra. }
  assert (Hs0 : 0 < s) by nra.
  set (h := rnd (s / 2)) in *.
  assert (Hh : s / 2 * m <= h <= s / 2 * p).
  { apply rnd_nonneg. lra. }
  assert (Hh0 : 0 < h) by nra.
  set (a := rnd (D + h)) in *.
  assert (Ha : (D + h) * m <= a <= (D + h) * p).
  { apply rnd_nonneg. lra. }
  assert (Ha0 : 0 < a) by nra.
  set (b := rnd (a - 0.0)) in *.
  assert (Hb : a * m <= b <= a * p).
  { unfold b. replace (a - 0.0) with a by lra. apply rnd_nonneg. lra. }
  assert (Hb0 : 0 < b) by nra.
  set (y := b / s) in *.
  assert (Hy0 : 0 < y) by (apply Rdiv_lt_0_compat; assumption).
  assert (Hq : y * m <= q <= y * p).
  { apply rnd_nonneg. lra. }
  assert (Hys : y * s = b) by (unfold y; field; lra).
  set (k := s * 44100).
  assert (Hk : m <= k <= p) by (unfold k; lra).
  assert (HX : 0 < X) by (unfold X; lra).
  assert (Hyk : y * k = b * 44100) by (unfold k; rewrite <- Hys; ring).
  set (h4 := h * 44100).
  assert (Hh4 : k * (m / 2) <= h4 <= k * (p / 2)) by (unfold h4, k; lra).
  set (a4 := a * 44100).
  assert (Ha4 : (X + h4) * m <= a4 <= (X + h4) * p) by (unfold a4, h4, X; lra).
  set (b4 := b * 44100) in *.
  assert (Hb4 : a4 * m <= b4 <= a4 * p).
  { unfold b4, a4. split.
    - replace (a * 44100 * m) with (a * m * 44100) by ring. lra.
    - replace (a * 44100 * p) with (a * p * 44100) by ring. lra. }
  clearbody X h4 a4 b4 y q k. clear Hys Hs Hh Ha Hb Hy0 Hb0 Ha0 Hh0 Hs0.
  clear h a b s HD D.
  assert (Hp4 : p * p * p * p < (1 + 8 * u) * m) by (unfold p, m; nra).
  assert (Hm4 : 1 - 8 * u < m * m * m * m) by (unfold m; nra).
  clearbody m p.
  assert (Hk0 : 0 < k) by lra.
  assert (Hup : y * k <= X * (p * p) + k * (p * p * p / 2)).
  { rewrite Hyk. apply Rle_trans with (a4 * p); [lra |].
    apply Rle_trans with ((X + h4) * p * p).
    { apply Rmult_le_compat_r; lra. }
    replace (X * (p * p) + k * (p * p * p / 2))
      with ((X + k * (p / 2)) * p * p) by field.
    apply Rmult_le_compat_r; [lra |]. apply Rmult_le_compat_r; lra. }
  assert (Hlo : X * (m * m) + k * (m * m * m / 2) <= y * k).
  { rewrite Hyk. apply Rle_trans with (a4 * m); [| lra].
    apply Rle_trans with ((X + h4) * m * m).
    2:{ apply Rmult_le_compat_r; lra. }
    replace (X * (m * m) + k * (m * m * m / 2))
      with ((X + k * (m / 2)) * m * m) by field.
    apply Rmult_le_compat_r; [lra |]. apply Rmult_le_compat_r; lra. }
  assert (Hpp : 0 < p * p) by nra.
  assert (Hmm : 0 < m * m) by nra.
  apply scale_up with (m := m) in Hup; [| lra | nra].
  apply scale_down with (p := p) in Hlo; [| lra | nra].
  split.
  - assert (H1 : (X * (m * m) + p * (m * m * m / 2)) * m <= q * p).
    { apply Rle_trans with (y * p * m).
      - apply Rmult_le_compat_r; lra.
      - replace (y * p * m) with (y * m * p) by ring.
        apply Rmult_le_compat_r; lra. }
    assert (H2 : (X + 1 / 2) * (m * m * m * m) * p
                 <= (X * (m * m) + p * (m * m * m / 2)) * m).
    { assert (Hmmm : 0 <= X * (m * m * m)).
      { apply Rmult_le_pos; [lra |]. nra. }
      assert (X * (m * m * m) * (m * p) <= X * (m * m * m) * 1).
      { apply Rmult_le_compat_l; lra. }
      lra. }
    assert (H3 : (X + 1 / 2) * (1 - 8 * u) * p
                 < (X + 1 / 2) * (m * m * m * m) * p).
    { apply Rmult_lt_compat_r; [lra |]. apply Rmult_lt_compat_l; lra. }
    apply Rmult_lt_reg_r with p; lra.
  - assert (H1 : q * m <= (X * (p * p) + m * (p * p * p / 2)) * p).
    { apply Rle_trans with (y * p * m).
      - apply Rmult_le_compat_r; lra.
      - replace (y * p * m) with (y * m * p) by ring.
        apply Rmult_le_compat_r; lra. }
    assert (H2 : (X * (p * p) + m * (p * p * p / 2)) * p
                 <= (X + 1 / 2) * (p * p * p * p)).
    { assert (Hppp : 0 <= p * p * p) by nra.
      assert (Hpppp : 0 <= p * p * p * p) by nra.
      assert (X * (p * p * p) * 1 <= X * (p * p * p) * p).
      { apply Rmult_le_compat_l; [| lra]. apply Rmult_le_pos; lra. }
      assert (m * (p * p * p * p) <= 1 * (p * p * p * p)).
      { apply Rmult_le_compat_r; lra. }
      lra. }
    assert (H3 : (X + 1 / 2) * (p * p * p * p)
                 < (X + 1 / 2) * ((1 + 8 * u) * m)).
    { apply Rmult_lt_compat_l; lra. }
    apply Rmult_lt_reg_r with m; lra.
Qed.

(** The number of points is the ceiling of a value within
    [(D * 44100 + 1/2) / 2 ^ 50] of [D * 44100 + 1/2]. *)
Lemma binary64_count (sinf : R -> R) (wx wy wz : R) (kw : kwargs) :
  0 < duration kw ->
  exists q,
    length (Binary64.sample_points rnd sinf wx wy wz kw)
    = Z.to_nat (Np.ceil q) /\
    Rabs (q - (duration kw * 44100 + 1 / 2))
    < (duration kw * 44100 + 1 / 2) / 2 ^ 50.
Proof.
  intros HD. eexists. split.
  - unfold Binary64.sample_points, Binary64.wave.
    rewrite vstack_T_length.
    unfold Binary64.sample_times, Binary64.arange.
    rewrite length_map, length_seq. unfold Binary64.arange_length.
    reflexivity.
  - pose proof (quotient_error (duration kw) HD) as H. cbn zeta in H.
    replace ((duration kw * 44100 + 1 / 2) / 2 ^ 50)
      with ((duration kw * 44100 + 1 / 2) * (8 * Binary64.unit_roundoff))
      by (rewrite eight_roundoffs; reflexivity).
    apply Rabs_def1; lra.
Qed.

End SamplerBinary64.

Section SampleCount.

(** The ceiling of a value close to [X + 1/2], from the integer and
    fractional parts of [X]. *)
Lemma ceil_near_half (q X eps : R) :
  Rabs (q - (X + 1 / 2)) < eps ->
  (frac_part X <= 1 / 2 - eps -> Np.ceil q = (Int_part X + 1)%Z) /\
  (1 / 2 + eps <= frac_part X -> Np.ceil q = (Int_part X + 2)%Z) /\
  (eps <= 1 / 2 ->
   Np.ceil q = (Int_part X + 1)%Z \/ Np.ceil q = (Int_part X + 2)%Z).
Proof.
  intros Hq. apply Rabs_def2 in Hq. destruct Hq as [Hq1 Hq2].
  pose proof (floor_spec X) as Hn. unfold frac_part.
  set (n := Int_part X) in *.
  assert (H1 : X - IZR n <= 1 / 2 - eps -> Np.ceil q = (n + 1)%Z).
  { intros Hf. apply ceil_unique. rewrite plus_IZR. lra. }
  assert (H2 : 1 / 2 + eps <= X - IZR n -> Np.ceil q = (n + 2)%Z).
  { intros Hf. apply ceil_unique. rewrite plus_IZR. lra. }
  repeat split; [exact H1 | exact H2 |].
  intros He.
  destruct (Rle_dec q (IZR n + 1)) as [Hle | Hgt].
  - left. apply ceil_unique. rewrite plus_IZR. lra.
  - right. apply ceil_unique. rewrite plus_IZR. lra.
Qed.

(** In exact arithmetic the sampler in doubles is the sampler of the
    pipeline. *)
Lemma binary64_exact (wx wy wz : R) (kw : kwargs) :
  Binary64.sample_points (fun x => x) sin wx wy wz kw
  = sample_points wx wy wz kw.
Proof.
  unfold Binary64.sample_points, sample_points, Binary64.wave, wave.
  assert (Ht : Binary64.sample_times (fun x => x) (duration kw)
               = sample_times (duration kw)).
  { unfold Binary64.sample_times, sample_times, Binary64.arange, Np.arange,
      Binary64.arange_length, Binary64.step_size, step_size.
    apply map_ext. intros [|[|i]].
    - cbn [INR]. lra.
    - cbn [INR]. lra.
    - ring. }
  now rewrite Ht.
Qed.

(** The first sample of the sampler in doubles. *)
Lemma binary64_first_point (rnd sinf : R -> R) (wx wy wz : R) (kw : kwargs) :
  Binary64.rounding rnd ->
  (1 <= length (Binary64.sample_points rnd sinf wx wy wz kw))%nat ->
  hd_error (Binary64.sample_points rnd sinf wx wy wz kw)
  = Some (rnd (amplitude_x kw * sinf (rnd (phase_x kw))),
          rnd (amplitude_y kw * sinf (rnd (phase_y kw))),
          rnd (amplitude_z kw * sinf (rnd (phase_z kw)))).
Proof.
  intros Hrnd. unfold Binary64.sample_points, Binary64.wave.
  rewrite vstack_T_length.
  unfold Binary64.sample_times, Binary64.arange.
  rewrite length_map, length_seq.
  destruct (Binary64.arange_length _ _ _ _) as [|len]; [lia |].
  intros _. cbn [seq map Np.vstack_T hd_error].
  replace 0.0 with 0 by lra.
  now rewrite !Rmult_0_r, (rnd_0 rnd Hrnd), !Rplus_0_l.
Qed.

(** What the count of the sampler in doubles is, from the duration. *)
Lemma binary64_count_cases (rnd sinf : R -> R) (wx wy wz : R)
    (kw : kwargs) :
  Binary64.rounding rnd ->
  0 < duration kw ->
  let points := Binary64.sample_points rnd sinf wx wy wz kw in
  let X := duration kw * 44100 in
  let eps := (X + 1 / 2) / 2 ^ 50 in
  (frac_part X <= 1 / 2 - eps ->
   length points = Z.to_nat (Int_part X + 1)) /\
  (1 / 2 + eps <= frac_part X ->
   length points = Z.to_nat (Int_part X + 2)) /\
  (eps <= 1 / 2 ->
   length points = Z.to_nat (Int_part X + 1) \/
   length points = Z.to_nat (Int_part X + 2)) /\
  (1 <= length points)%nat.
Proof.
  intros Hrnd HD points X eps.
  destruct (binary64_count rnd Hrnd sinf wx wy wz kw HD) as (q & Hlen & Hq).
  fold points in Hlen. fold X in Hq. fold eps in Hq.
  destruct (ceil_near_half q X eps Hq) as (H1 & H2 & H3).
  rewrite Hlen.
  repeat split.
  - intros Hf. now rewrite H1.
  - intros Hf. now rewrite H2.
  - intros He. destruct (H3 He) as [-> | ->]; [now left | now right].
  - assert (Hpow : 1 <= 2 ^ 50) by (apply pow_R1_Rle; lra).
    assert (HX : 0 < X + 1 / 2) by (unfold X; lra).
    assert (Heps : eps <= X + 1 / 2).
    { unfold eps. apply Rle_trans with ((X + 1 / 2) / 1); [| lra].
      unfold Rdiv. apply Rmult_le_compat_l; [lra |].
      apply Rinv_le_contravar; lra. }
    apply Rabs_def2 in Hq.
    destruct (ceil_spec q) as [_ Hc].
    assert (0 < IZR (Np.ceil q)) by lra.
    apply lt_IZR in H. lia.
Qed.

(** A count of [floor(D * 44100) + 1] fails once the fractional part of
    [D * 44100] exceeds one half: a duration of 0.00002 s gives two points,
    in exact arithmetic and in doubles, and [floor(0.882) + 1 = 1]. *)
Lemma sample_count_counterexample :
  let kw := Kwargs 0.00002 1 1 1 0 0 0 0.05 16 "out.stl" in
  0 < duration kw /\
  length (sample_points 261.63 329.63 392.00 kw) = 2%nat /\
  Z.to_nat (Int_part (duration kw * 44100) + 1) = 1%nat /\
  (forall rnd sinf : R -> R,
     Binary64.rounding rnd ->
     length (Binary64.sample_points rnd sinf 261.63 329.63 392.00 kw)
     = 2%nat).
Proof.
  cbn [duration].
  assert (Hn : Int_part (0.00002 * 44100) = 0%Z).
  { symmetry. apply Int_part_spec. lra. }
  split; [lra | split; [| split]].
  - rewrite sample_points_length. cbn [duration].
    rewrite (ceil_unique _ 2); [reflexivity | lra].
  - now rewrite Hn.
  - intros rnd sinf Hrnd.
    destruct (binary64_count_cases rnd sinf 261.63 329.63 392.00
                (Kwargs 0.00002 1 1 1 0 0 0 0.05 16 "out.stl") Hrnd)
      as (_ & H2 & _); [cbn; lra |].
    cbn [duration] in H2. rewrite Hn in H2. apply H2.
    unfold frac_part. rewrite Hn.
    assert (Hpow : 1000 <= 2 ^ 50).
    { replace (2 ^ 50) with (1024 * 2 ^ 40) by (simpl; ring).
      assert (1 <= 2 ^ 40) by (apply pow_R1_Rle; lra). lra. }
    assert ((0.00002 * 44100 + 1 / 2) / 2 ^ 50 <= 0.01).
    { apply Rle_trans with (2 / 2 ^ 50).
      - unfold Rdiv. apply Rmult_le_compat_r; [| lra].
        left. apply Rinv_0_lt_compat. lra.
      - apply Rle_trans with (2 / 1000); [| lra].
        unfold Rdiv. apply Rmult_le_compat_l; [lra |].
        apply Rinv_le_contravar; lra. }
    lra.
Qed.

(** C1, amended: for every duration [D > 0] the sampler, computing in
    doubles, produces [floor(D * 44100) + 1] points when the fractional part
    of [D * 44100] is at most [1/2 - eps], and [floor(D * 44100) + 2] points
    when it is at least [1/2 + eps], where
    [eps = (D * 44100 + 1/2) / 2 ^ 50] bounds the rounding error of the
    quotient of which numpy takes the ceiling; closer than [eps] to one half
    the count is one of the two, as the rounding decides.  The first point is
    the sample at [t = 0],
    [(Ax * sin(phase_x), Ay * sin(phase_y), Az * sin(phase_z))], with the
    sines and the products taken in doubles. *)
Theorem binary64_sample_count_and_first_point (rnd sinf : R -> R)
    (wx wy wz : R) (kw : kwargs) :
  Binary64.rounding rnd ->
  0 < duration kw ->
  let points := Binary64.sample_points rnd sinf wx wy wz kw in
  let X := duration kw * 44100 in
  let eps := (X + 1 / 2) / 2 ^ 50 in
  (frac_part X <= 1 / 2 - eps ->
   length points = Z.to_nat (Int_part X + 1)) /\
  (1 / 2 + eps <= frac_part X ->
   length points = Z.to_nat (Int_part X + 2)) /\
  (eps <= 1 / 2 ->
   length points = Z.to_nat (Int_part X + 1) \/
   length points = Z.to_nat (Int_part X + 2)) /\
  hd_error points
  = Some (rnd (amplitude_x kw * sinf (rnd (phase_x kw))),
          rnd (amplitude_y kw * sinf (rnd (phase_y kw))),
          rnd (amplitude_z kw * sinf (rnd (phase_z kw)))).
Proof.
  intros Hrnd HD points X eps.
  destruct (binary64_count_cases rnd sinf wx wy wz kw Hrnd HD)
    as (H1 & H2 & H3 & Hlen).
  repeat split; try assumption.
  now apply binary64_first_point.
Qed.

(** A duration of 0.0256 s, 1128.96 steps, with a rounding that errs by a
    full unit roundoff at every operation: 1130 points. *)
Lemma binary64_sample_count_and_first_point_witness :
  Binary64.rounding Binary64.round_away /\
  0 < duration fractional_duration /\
  length (Binary64.sample_points Binary64.round_away sin
            261.63 329.63 392.00 fractional_duration) = 1130%nat.
Proof.
  assert (HD : 0 < duration fractional_duration) by (cbn; lra).
  split; [exact rounding_round_away | split; [exact HD |]].
  destruct (binary64_sample_count_and_first_point Binary64.round_away sin
              261.63 329.63 392.00 fractional_duration
              rounding_round_away HD) as (_ & H2 & _).
  cbn [duration fractional_duration] in H2.
  assert (Hn : Int_part (0.0256 * 44100) = 1128%Z).
  { symmetry. apply Int_part_spec. lra. }
  rewrite Hn in H2. apply H2.
  unfold frac_part. rewrite Hn.
  assert (Hpow : 1000000 <= 2 ^ 50).
  { replace (2 ^ 50) with (1048576 * 2 ^ 30) by (simpl; ring).
    assert (1 <= 2 ^ 30) by (apply pow_R1_Rle; lra). lra. }
  assert ((0.0256 * 44100 + 1 / 2) / 2 ^ 50 <= 0.01).
  { apply Rle_trans with (2000 / 2 ^ 50).
    - unfold Rdiv. apply Rmult_le_compat_r; [| lra].
      left. apply Rinv_0_lt_compat. lra.
    - apply Rle_trans with (2000 / 1000000); [| lra].
      unfold Rdiv. apply Rmult_le_compat_l; [lra |].
      apply Rinv_le_contravar; lra. }
  lra.
Defined.

End SampleCount.

(** ** The segment builder *)

Section SegmentBuilder.

Variable points : list vec3.
Variable tube_radius : R.
Variable cylinder_segments : Z.

Lemma norm_sub_distance (p q : vec3) : Np.norm (Np.sub q p) = distance p q.
Proof.
  destruct p as [[px py] pz], q as [[qx qy] qz].
  unfold Np.norm, Np.sub, Np.dot, distance. f_equal. ring.
Qed.

Lemma segment_step_cases (all_meshes : list Trimesh.mesh) (i : nat) :
  segment_step points tube_radius cylinder_segments all_meshes i
  = if degenerate points i then all_meshes
    else (all_meshes
          ++ [segment_mesh points tube_radius cylinder_segments i])%list.
Proof.
  unfold segment_step, degenerate, segment_mesh.
  rewrite norm_sub_distance.
  destruct (Rlt_dec _ _); reflexivity.
Qed.

Lemma fold_segment_step (l : list nat) (acc : list Trimesh.mesh) :
  fold_left (segment_step points tube_radius cylinder_segments) l acc
  = (acc ++ map (segment_mesh points tube_radius cylinder_segments)
             (filter (fun i => negb (degenerate points i)) l))%list.
Proof.
  revert acc. induction l as [|i l IH]; intros acc; cbn [fold_left filter].
  - now rewrite app_nil_r.
  - rewrite IH, segment_step_cases.
    destruct (degenerate points i); cbn [negb map]; [reflexivity |].
    now rewrite <- app_assoc.
Qed.

(** The loop keeps, in order, the meshes of the pairs that pass the test. *)
Lemma build_segments_filter :
  build_segments points tube_radius cylinder_segments
  = map (segment_mesh points tube_radius cylinder_segments)
      (filter (fun i => negb (degenerate points i)) (seq 0 (length points - 1))).
Proof. unfold build_segments. now rewrite fold_segment_step. Qed.

Lemma filter_negb_length {A : Type} (f : A -> bool) (l : list A) :
  (length (filter (fun a => negb (f a)) l) + length (filter f l)
   = length l)%nat.
Proof.
  induction l as [|a l IH]; [reflexivity |].
  cbn [filter]. destruct (f a); cbn [negb length]; lia.
Qed.

(** C2: a consecutive pair closer than [1e-6] leaves the mesh collection as
    it was, and the number of meshes the loop builds is the number of
    consecutive pairs, [len(points) - 1], minus the number of pairs closer
    than [1e-6]. *)
Theorem segment_mesh_count :
  (forall all_meshes i,
     segment_step points tube_radius cylinder_segments all_meshes i
     = if Rlt_dec (distance (point_at points i) (point_at points (i + 1))) 1e-6
       then all_meshes
       else (all_meshes
             ++ [segment_mesh points tube_radius cylinder_segments i])%list) /\
  length (build_segments points tube_radius cylinder_segments)
  = (length points - 1 - degenerate_count points)%nat.
Proof.
  split.
  - intros all_meshes i. rewrite segment_step_cases. unfold degenerate.
    destruct (Rlt_dec _ _); reflexivity.
  - rewrite build_segments_filter, length_map. unfold degenerate_count.
    pose proof (filter_negb_length (degenerate points) (seq 0 (length points - 1))) as H.
    rewrite length_seq in H. lia.
Qed.

(** The mesh of a pair at distance [>= 1e-6] is in the collection. *)
Lemma segment_mesh_In (i : nat) :
  (i < length points - 1)%nat ->
  1e-6 <= distance (point_at points i) (point_at points (i + 1)) ->
  In (segment_mesh points tube_radius cylinder_segments i)
     (build_segments points tube_radius cylinder_segments).
Proof.
  intros Hi Hd. rewrite build_segments_filter.
  apply in_map. apply filter_In. split.
  - apply in_seq. lia.
  - unfold degenerate. destruct (Rlt_dec _ _); [lra | reflexivity].
Qed.

(** C5: for every consecutive pair at distance [>= 1e-6], the loop asks the
    library for a cylinder whose height is the Euclidean distance between the
    two points, and appends it, transformed, to the collection. *)
Theorem cylinder_height_is_distance (i : nat) :
  (i < length points - 1)%nat ->
  1e-6 <= distance (point_at points i) (point_at points (i + 1)) ->
  segment_step points tube_radius cylinder_segments [] i
  = [Trimesh.apply_transform
       (Trimesh.cylinder tube_radius
          (distance (point_at points i) (point_at points (i + 1)))
          cylinder_segments)
       (segment_transform (point_at points i) (point_at points (i + 1)))] /\
  In (Trimesh.apply_transform
        (Trimesh.cylinder tube_radius
           (distance (point_at points i) (point_at points (i + 1)))
           cylinder_segments)
        (segment_transform (point_at points i) (point_at points (i + 1))))
     (build_segments points tube_radius cylinder_segments).
Proof.
  intros Hi Hd. split.
  - rewrite segment_step_cases. unfold degenerate.
    destruct (Rlt_dec _ _); [lra | reflexivity].
  - now apply segment_mesh_In.
Qed.

(** Conversely, every mesh of the collection is the cylinder of a pair at
    distance [>= 1e-6]. *)
Lemma build_segments_In (m : Trimesh.mesh) :
  In m (build_segments points tube_radius cylinder_segments) ->
  exists i, (i < length points - 1)%nat /\
    1e-6 <= distance (point_at points i) (point_at points (i + 1)) /\
    m = segment_mesh points tube_radius cylinder_segments i.
Proof.
  rewrite build_segments_filter, in_map_iff.
  intros (i & <- & Hi). apply filter_In in Hi. destruct Hi as [Hi Hd].
  apply in_seq in Hi. exists i. split; [lia | split; [| reflexivity]].
  unfold degenerate in Hd. destruct (Rlt_dec _ _); [discriminate | lra].
Qed.

End SegmentBuilder.

(** The segment from the origin to [(3, 0, 4)]: a cylinder of height 5. *)
Lemma cylinder_height_is_distance_witness :
  distance (0, 0, 0) (3, 0, 4) = 5 /\
  In (Trimesh.apply_transform (Trimesh.cylinder 0.05 5 16)
        (segment_transform (0, 0, 0) (3, 0, 4)))
     (build_segments [(0, 0, 0); (3, 0, 4)] 0.05 16).
Proof.
  assert (Hd : distance (0, 0, 0) (3, 0, 4) = 5).
  { unfold distance. replace (_ + _ + _) with (5 * 5) by ring.
    apply sqrt_square. lra. }
  split; [exact Hd |].
  pose proof (cylinder_height_is_distance [(0, 0, 0); (3, 0, 4)] 0.05 16 0)
    as H.
  cbn [point_at nth Nat.add length Nat.sub] in H. rewrite Hd in H.
  apply H; [lia | lra].
Defined.

(** ** The rotation of a segment *)

Section Rotation.

(** The cubic lower bound of the sine that the library's series gives. *)
Lemma sin_lower_bound (a : R) : 0 <= a <= 4 -> a - a ^ 3 / 6 <= sin a.
Proof.
  intros [H0 H4].
  destruct (pre_sin_bound a 0 H0 H4) as [H _].
  unfold sin_approx, sin_term in H. cbn in H. lra.
Qed.

(** The first step of a table frequency moves the sine away from zero. *)
Lemma first_step_sin (w : R) :
  200 <= w <= 1000 ->
  1e-6 <= sin (2 * PI * w * (INR 1 * step_size) + 0).
Proof.
  intros Hw. pose proof PI_4. pose proof PI2_3_2.
  set (a := 2 * PI * w * (INR 1 * step_size) + 0).
  assert (Ha : 0.02 <= a <= 0.2).
  { unfold a, step_size, sample_rate. cbn [INR]. nra. }
  pose proof (sin_lower_bound a) as Hs.
  assert (a ^ 3 <= 0.008).
  { assert (a * a <= 0.04) by nra. nra. }
  lra.
Qed.

(** A direction along the Z axis has a zero cross product with [from_v];
    normalising it divides zero by zero. *)
Lemma segment_rotation_vertical (c : R) : segment_rotation (0, 0, c) = None.
Proof.
  unfold segment_rotation.
  destruct (Np.arccos _) as [angle|]; [| reflexivity].
  unfold Trimesh.rotation_matrix, Trimesh.unit_vector, from_v, Np.cross, Np.dot.
  destruct (Req_dec_T _ _) as [_ | Hne]; [reflexivity |].
  exfalso. apply Hne.
  match goal with |- sqrt ?e = 0 => replace e with 0 by ring end.
  apply sqrt_0.
Qed.

Lemma segment_transform_vertical (x y z0 z1 : R) :
  segment_transform (x, y, z0) (x, y, z1) = None.
Proof.
  unfold segment_transform. cbn [Np.sub Np.div].
  replace ((x - x) / _) with 0 by (unfold Rdiv; ring).
  replace ((y - y) / _) with 0 by (unfold Rdiv; ring).
  now rewrite segment_rotation_vertical.
Qed.

End Rotation.

(** ** Segments that are not along the Z axis *)

Section Rigid.

(** The normalisation of a vector that is not zero is a unit vector. *)
Lemma unit_vector_unit (v : vec3) :
  Np.dot v v <> 0 ->
  exists d, Trimesh.unit_vector v = Some d /\ Np.dot d d = 1 /\
            d = Np.div v (Np.norm v).
Proof.
  intros Hv. unfold Trimesh.unit_vector.
  assert (Hpos : 0 <= Np.dot v v).
  { destruct v as [[v0 v1] v2]. unfold Np.dot. nra. }
  assert (Hn : sqrt (Np.dot v v) <> 0).
  { intros E. apply Hv. now apply sqrt_eq_0. }
  destruct (Req_dec_T _ _) as [E | _]; [contradiction |].
  eexists. split; [reflexivity | split; [| reflexivity]].
  pose proof (sqrt_sqrt _ Hpos) as Hs.
  destruct v as [[v0 v1] v2]. unfold Np.div, Np.dot in *.
  set (n := sqrt _) in *.
  field_simplify_eq; [| exact Hn]. nra.
Qed.

(** When the axis is not the zero vector, the 3x3 block of the matrix the
    library returns is a rotation, and the matrix has no translation. *)
Lemma rotation_matrix_rotation (angle : R) (v : vec3) (M : mat4) :
  Trimesh.rotation_matrix angle v = Some M ->
  let B := Np.block33 M in
  Np.mat3_mul (Np.transpose3 B) B = Np.eye3 /\
  Np.det3 B = 1 /\
  Np.row3 M = (0, 0, 0, 1) /\
  Np.col3 M = (0, 0, 0).
Proof.
  unfold Trimesh.rotation_matrix.
  destruct (Trimesh.unit_vector v) as [[[d0 d1] d2]|] eqn:Eu; [| discriminate].
  assert (Hd : d0 * d0 + d1 * d1 + d2 * d2 = 1).
  { unfold Trimesh.unit_vector in Eu.
    destruct (Req_dec_T _ _) as [| Hn]; [discriminate |].
    destruct (unit_vector_unit v) as (d & Hd1 & Hd2 & _).
    { intros E. apply Hn. rewrite E. apply sqrt_0. }
    unfold Trimesh.unit_vector in Hd1.
    destruct (Req_dec_T _ _); [contradiction |].
    rewrite Eu in Hd1. injection Hd1 as <-. exact Hd2. }
  pose proof (sin2_cos2 angle) as Hcs. unfold Rsqr in Hcs.
  set (c := cos angle) in *. set (s := sin angle) in *.
  clearbody c s. intros [= <-]. cbn. unfold Np.eye3.
  repeat split; try reflexivity.
  - entrywise; nsatz.
  - nsatz.
Qed.


(** The rotation of a unit direction that is not along the Z axis: the angle
    is defined, the matrix exists, and its 3x3 block maps [from_v] to the
    direction. *)
Lemma segment_rotation_unit (a b c : R) :
  a * a + b * b + c * c = 1 -> a * a + b * b <> 0 ->
  exists M0, segment_rotation (a, b, c) = Some M0 /\
    Np.mat3_mul_vec (Np.block33 M0) from_v = (a, b, c).
Proof.
  intros Hu Hab. unfold segment_rotation, from_v.
  assert (Hdot : Np.dot (0, 0, 1) (a, b, c) = c) by (unfold Np.dot; ring).
  rewrite Hdot. unfold Np.arccos.
  destruct (Rle_dec (-1) c) as [Hc1 |]; [| nra].
  destruct (Rle_dec c 1) as [Hc2 |]; [| nra].
  assert (Hcos : cos (acos c) = c) by (apply cos_acos; lra).
  assert (Hs2 : 1 - c² = a * a + b * b) by (unfold Rsqr; lra).
  assert (Hsin : sin (acos c) = sqrt (a * a + b * b)).
  { rewrite sin_acos by lra. now rewrite Hs2. }
  set (v := Np.cross (0, 0, 1) (a, b, c)).
  assert (Hvv : Np.dot v v = a * a + b * b).
  { unfold v, Np.cross, Np.dot. ring. }
  destruct (unit_vector_unit v) as (d & Hd & _ & Hdv).
  { now rewrite Hvv. }
  unfold Trimesh.rotation_matrix. rewrite Hd, Hcos, Hsin.
  unfold Np.norm in Hdv. rewrite Hvv in Hdv.
  set (s := sqrt (a * a + b * b)) in *.
  assert (Hs : s <> 0).
  { intros E. apply Hab. apply sqrt_eq_0; [nra | exact E]. }
  subst d. unfold v, Np.cross, Np.div.
  eexists. split; [reflexivity |].
  cbn. entrywise; field; exact Hs.
Qed.


(** The direction of a segment that is not degenerate is a unit vector. *)
Lemma segment_direction_unit (p q : vec3) :
  1e-6 <= distance p q ->
  exists a b c,
    Np.div (Np.sub q p) (Np.norm (Np.sub q p)) = (a, b, c) /\
    a * a + b * b + c * c = 1 /\
    Np.sub q p = (a * distance p q, b * distance p q, c * distance p q).
Proof.
  intros Hd. rewrite norm_sub_distance.
  destruct p as [[px py] pz], q as [[qx qy] qz].
  set (n := distance (px, py, pz) (qx, qy, qz)) in *.
  assert (Hn : n * n = (qx - px) ^ 2 + (qy - py) ^ 2 + (qz - pz) ^ 2).
  { unfold n, distance. cbv beta iota. apply sqrt_sqrt.
    pose proof (pow2_ge_0 (qx - px)). pose proof (pow2_ge_0 (qy - py)).
    pose proof (pow2_ge_0 (qz - pz)). lra. }
  unfold Np.sub, Np.div. eexists _, _, _. split; [reflexivity | split].
  - assert (Hn0 : n <> 0) by lra.
    replace ((qx - px) / n * ((qx - px) / n) + (qy - py) / n * ((qy - py) / n)
             + (qz - pz) / n * ((qz - pz) / n))
      with (((qx - px) ^ 2 + (qy - py) ^ 2 + (qz - pz) ^ 2) / (n * n))
      by (field; exact Hn0).
    rewrite <- Hn. field. exact Hn0.
  - entrywise; field; lra.
Qed.

(** Without a clamp, the argument of [arccos] is within [-1, 1] for every
    segment that is not degenerate: in exact arithmetic the angle is always
    defined. *)
Lemma segment_angle_defined (p q : vec3) :
  1e-6 <= distance p q ->
  exists angle,
    Np.arccos
      (Np.dot from_v (Np.div (Np.sub q p) (Np.norm (Np.sub q p))))
    = Some angle /\ 0 <= angle <= PI.
Proof.
  intros Hd. destruct (segment_direction_unit p q Hd) as (a & b & c & -> & Hu & _).
  unfold Np.arccos, from_v, Np.dot.
  destruct (Rle_dec _ _) as [|]; [| nra].
  destruct (Rle_dec _ _) as [|]; [| nra].
  eexists. split; [reflexivity | apply acos_bound].
Qed.

(** The transform of a segment that is neither degenerate nor along the Z
    axis is a rigid matrix: its last row is [(0, 0, 0, 1)], its 3x3 block is
    a rotation, its translation is the midpoint; it maps the axis of the
    cylinder to the direction of the segment, and the centres of the two caps
    to the two end points. *)
Lemma segment_transform_rigid (p q : vec3) :
  1e-6 <= distance p q ->
  fst (fst q) <> fst (fst p) \/ snd (fst q) <> snd (fst p) ->
  exists M, segment_transform p q = Some M /\
    Np.row3 M = (0, 0, 0, 1) /\
    Np.col3 M = Np.div (Np.add p q) 2 /\
    Np.mat3_mul (Np.transpose3 (Np.block33 M)) (Np.block33 M) = Np.eye3 /\
    Np.det3 (Np.block33 M) = 1 /\
    Np.mat3_mul_vec (Np.block33 M) from_v
    = Np.div (Np.sub q p) (distance p q) /\
    Trimesh.transform_point M (0, 0, - (distance p q / 2)) = p /\
    Trimesh.transform_point M (0, 0, distance p q / 2) = q.
Proof.
  intros Hd Hxy.
  destruct (segment_direction_unit p q Hd) as (a & b & c & Hdir & Hu & Hsub).
  assert (Hab : a * a + b * b <> 0).
  { destruct p as [[px py] pz], q as [[qx qy] qz].
    cbn [fst snd] in Hxy. unfold Np.sub in Hsub.
    injection Hsub as Ha Hb _.
    intros E. assert (a = 0 /\ b = 0) as [-> ->] by nra.
    destruct Hxy as [H | H]; apply H; lra. }
  destruct (segment_rotation_unit a b c Hu Hab) as (M0 & HM0 & Hcol).
  unfold segment_transform. rewrite Hdir, HM0.
  unfold segment_rotation in HM0.
  destruct (Np.arccos _) as [angle|]; [| discriminate].
  destruct (rotation_matrix_rotation _ _ _ HM0) as (Horth & Hdet & _ & _).
  rewrite <- norm_sub_distance, Hdir. rewrite norm_sub_distance.
  destruct M0 as [[[[[[m00 m01] m02] m03] [[[m10 m11] m12] m13]]
                     [[[m20 m21] m22] m23]] r3].
  destruct p as [[px py] pz], q as [[qx qy] qz].
  set (n := distance (px, py, pz) (qx, qy, qz)) in *.
  clearbody n. clear Hdir HM0.
  unfold Np.sub in Hsub. injection Hsub as Ha Hb Hc.
  cbn in Horth, Hdet, Hcol. injection Hcol as Hc0 Hc1 Hc2.
  eexists. split; [reflexivity |].
  unfold Trimesh.transform_point. cbn.
  repeat split; try assumption; try reflexivity;
    entrywise; nra.
Qed.

End Rigid.

(** ** The whole call *)

Section Pipeline.

Lemma default_sample_count (wx wy wz : R) (kw : kwargs) :
  duration kw = 0.05 -> length (sample_points wx wy wz kw) = 2206%nat.
Proof.
  intros HD. rewrite sample_points_length, HD.
  rewrite (ceil_unique _ 2206); [reflexivity | lra].
Qed.

(** The first two points of a curve along the Z axis. *)
Lemma vertical_first_points (wx wy wz : R) (kw : kwargs) :
  duration kw = 0.05 -> amplitude_x kw = 0 -> amplitude_y kw = 0 ->
  phase_z kw = 0 ->
  let points := sample_points wx wy wz kw in
  point_at points 0 = (0, 0, 0) /\
  point_at points 1
  = (0, 0, amplitude_z kw * sin (2 * PI * wz * (INR 1 * step_size) + 0)).
Proof.
  intros HD Hx Hy Hp points. subst points.
  pose proof (default_sample_count wx wy wz kw HD) as Hlen.
  rewrite !point_at_sample by lia.
  rewrite Hx, Hy, Hp. cbn [INR].
  rewrite !Rmult_0_l, !Rmult_0_r, !Rplus_0_l, sin_0, !Rmult_0_r.
  split; reflexivity || (f_equal; f_equal; f_equal; lra).
Qed.

(** What a call with three recognised notes returns and does. *)
Lemma create_recognised (n1 n2 n3 : string) (wx wy wz : R) (kw : kwargs)
    (w : world) :
  get_note_frequency n1 = Some wx ->
  get_note_frequency n2 = Some wy ->
  get_note_frequency n3 = Some wz ->
  let meshes :=
    build_segments (sample_points wx wy wz kw) (tube_radius kw)
                   (cylinder_segments kw) in
  create_lissajous_from_notes_3d n1 n2 n3 kw w
  = match meshes with
    | [] =>
        (Some (Trimesh.icosphere (tube_radius kw / 2)),
         World (stdout w ++ [MsgGenerating n1 wx n2 wy n3 wz; MsgNoSegments;
                             MsgSaved (output_filename kw)])
               ((output_filename kw, Trimesh.icosphere (tube_radius kw / 2))
                :: files w))
    | _ :: _ =>
        (Some (Trimesh.concatenate meshes),
         World (stdout w ++ [MsgGenerating n1 wx n2 wy n3 wz;
                             MsgSaved (output_filename kw)])
               ((output_filename kw, Trimesh.concatenate meshes) :: files w))
    end.
Proof.
  intros H1 H2 H3 meshes. unfold create_lissajous_from_notes_3d.
  rewrite H1, H2, H3. fold meshes.
  destruct meshes as [|m ms]; unfold assemble, bind, print, export, ret;
    cbn [stdout files]; now rewrite <- !app_assoc.
Qed.

(** A collection built by the loop holds one cylinder per mesh. *)
Lemma build_segments_primitive_count (points : list vec3) (r : R) (n : Z) :
  list_sum (map Trimesh.primitive_count (build_segments points r n))
  = length (build_segments points r n).
Proof.
  rewrite build_segments_filter.
  induction (filter _ _) as [|i l IH]; [reflexivity |].
  unfold list_sum in *. cbn [map fold_right length]. rewrite IH. reflexivity.
Qed.

(** No pair, or only pairs closer than [1e-6], leave the collection empty. *)
Lemma build_segments_empty (points : list vec3) (r : R) (n : Z) :
  (length points < 2)%nat \/
  (forall i, (i < length points - 1)%nat ->
     distance (point_at points i) (point_at points (i + 1)) < 1e-6) ->
  build_segments points r n = [].
Proof.
  intros H. destruct (build_segments points r n) as [|m ms] eqn:E;
    [reflexivity | exfalso].
  assert (Hin : In m (build_segments points r n)) by (rewrite E; now left).
  apply build_segments_In in Hin. destruct Hin as (i & Hi & Hd & _).
  destruct H as [H | H]; [lia |]. specialize (H i Hi). lra.
Qed.

(** A duration that is not positive gives at most one sample. *)
Lemma nonpositive_duration_points (wx wy wz : R) (kw : kwargs) :
  duration kw <= 0 -> (length (sample_points wx wy wz kw) < 2)%nat.
Proof.
  intros HD. rewrite sample_points_length.
  destruct (ceil_spec (duration kw * 44100 + 1 / 2)) as [Hc _].
  assert (Hle : (Np.ceil (duration kw * 44100 + 1 / 2) < 2)%Z).
  { apply lt_IZR. lra. }
  lia.
Qed.

(** Every mesh of a curve sampled along the Z axis has a transform with an
    undefined rotation. *)
Lemma vertical_curve_meshes (wx wy wz : R) (kw : kwargs) (m : Trimesh.mesh) :
  amplitude_x kw = 0 -> amplitude_y kw = 0 ->
  In m (build_segments (sample_points wx wy wz kw) (tube_radius kw)
                       (cylinder_segments kw)) ->
  exists h, 1e-6 <= h /\
    m = Trimesh.apply_transform
          (Trimesh.cylinder (tube_radius kw) h (cylinder_segments kw)) None.
Proof.
  intros Hx Hy Hin. apply build_segments_In in Hin.
  destruct Hin as (i & Hi & Hd & ->).
  eexists. split; [exact Hd |]. unfold segment_mesh. f_equal.
  rewrite !point_at_sample by lia. rewrite Hx, Hy, !Rmult_0_l.
  apply segment_transform_vertical.
Qed.


(** The first segment of a curve along the Z axis, of height [h > 0] upwards
    ([up = true]) or downwards: it is not degenerate, and its mesh, with an
    undefined rotation, is in the collection. *)
Lemma vertical_first_segment (wx wy wz : R) (kw : kwargs) (h : R) :
  duration kw = 0.05 -> amplitude_x kw = 0 -> amplitude_y kw = 0 ->
  phase_z kw = 0 ->
  1e-6 <= Rabs h ->
  amplitude_z kw * sin (2 * PI * wz * (INR 1 * step_size) + 0) = h ->
  In (Trimesh.apply_transform
        (Trimesh.cylinder (tube_radius kw) (Rabs h) (cylinder_segments kw))
        None)
     (build_segments (sample_points wx wy wz kw) (tube_radius kw)
                     (cylinder_segments kw)).
Proof.
  intros HD Hx Hy Hp Hh Hz.
  destruct (vertical_first_points wx wy wz kw HD Hx Hy Hp) as [H0 H1].
  rewrite Hz in H1.
  pose proof (default_sample_count wx wy wz kw HD) as Hlen.
  assert (Hd : distance (0, 0, 0) (0, 0, h) = Rabs h).
  { unfold distance. rewrite <- sqrt_Rsqr_abs. f_equal. unfold Rsqr. ring. }
  pose proof (segment_mesh_In (sample_points wx wy wz kw)
                (tube_radius kw) (cylinder_segments kw) 0) as Hin.
  unfold segment_mesh in Hin. cbn [Nat.add] in Hin.
  rewrite H0, H1, Hd in Hin.
  rewrite segment_transform_vertical in Hin.
  apply Hin; [lia | exact Hh].
Qed.

(** C7: with recognised notes, fewer than two points or only pairs closer
    than [1e-6] leave the collection empty; when it is empty the call exports
    and returns the sphere of radius [tube_radius / 2]; and in every case the
    call returns the mesh it exported, which holds at least one solid. *)
Theorem fallback_sphere_when_empty (n1 n2 n3 : string) (wx wy wz : R)
    (kw : kwargs) (w : world) :
  get_note_frequency n1 = Some wx ->
  get_note_frequency n2 = Some wy ->
  get_note_frequency n3 = Some wz ->
  let points := sample_points wx wy wz kw in
  let meshes :=
    build_segments points (tube_radius kw) (cylinder_segments kw) in
  let sphere := Trimesh.icosphere (tube_radius kw / 2) in
  ((length points < 2)%nat \/
   (forall i, (i < length points - 1)%nat ->
      distance (point_at points i) (point_at points (i + 1)) < 1e-6) ->
   meshes = []) /\
  (meshes = [] ->
   create_lissajous_from_notes_3d n1 n2 n3 kw w
   = (Some sphere,
      World (stdout w ++ [MsgGenerating n1 wx n2 wy n3 wz; MsgNoSegments;
                          MsgSaved (output_filename kw)])
            ((output_filename kw, sphere) :: files w))) /\
  (exists final_mesh msgs,
     create_lissajous_from_notes_3d n1 n2 n3 kw w
     = (Some final_mesh,
        World (stdout w ++ msgs)
              ((output_filename kw, final_mesh) :: files w)) /\
     (1 <= Trimesh.primitive_count final_mesh)%nat).
Proof.
  intros H1 H2 H3 points meshes sphere.
  pose proof (create_recognised n1 n2 n3 wx wy wz kw w H1 H2 H3) as Hc.
  cbn zeta in Hc. fold points in Hc. fold meshes in Hc.
  split; [| split].
  - apply build_segments_empty.
  - intros E. now rewrite E in Hc.
  - pose proof (build_segments_primitive_count points (tube_radius kw)
                  (cylinder_segments kw)) as Hn.
    fold meshes in Hn.
    destruct meshes as [|m ms].
    + eexists _, _. split; [exact Hc | cbn; lia].
    + eexists _, _. split; [exact Hc |].
      cbn [Trimesh.primitive_count]. rewrite Hn. cbn [length]. lia.
Qed.

(** A duration too short for a second sample: the call exports the sphere. *)
Lemma fallback_sphere_when_empty_witness :
  create_lissajous_from_notes_3d "C4" "E4" "G4" too_short initial_world
  = (Some (Trimesh.icosphere (0.05 / 2)),
     World [MsgGenerating "C4" 261.63 "E4" 329.63 "G4" 392.00; MsgNoSegments;
            MsgSaved "lissajous_3d_custom_notes.stl"]
           [("lissajous_3d_custom_notes.stl", Trimesh.icosphere (0.05 / 2))]).
Proof.
  destruct (fallback_sphere_when_empty "C4" "E4" "G4" 261.63 329.63 392.00
              too_short initial_world eq_refl eq_refl eq_refl)
    as (Hempty & Hsphere & _).
  apply Hsphere, Hempty. left.
  rewrite sample_points_length. cbn [duration too_short].
  rewrite (ceil_unique _ 1); [cbn; lia | lra].
Defined.

(** No InvalidParameter failure: a call with a negative duration, negative
    amplitudes, a negative tube radius and two-sided cylinders returns a mesh
    and writes the file. *)
Lemma invalid_parameter_counterexample :
  duration all_invalid <= 0 /\ tube_radius all_invalid <= 0 /\
  amplitude_x all_invalid <= 0 /\ (cylinder_segments all_invalid < 3)%Z /\
  create_lissajous_from_notes_3d "C4" "E4" "G4" all_invalid initial_world
  = (Some (Trimesh.icosphere (-0.05 / 2)),
     World [MsgGenerating "C4" 261.63 "E4" 329.63 "G4" 392.00; MsgNoSegments;
            MsgSaved "lissajous_3d_custom_notes.stl"]
           [("lissajous_3d_custom_notes.stl", Trimesh.icosphere (-0.05 / 2))]).
Proof.
  repeat split; try (cbn; lra); try reflexivity.
  rewrite (create_recognised "C4" "E4" "G4" 261.63 329.63 392.00)
    by reflexivity.
  rewrite build_segments_empty; [reflexivity |].
  left. apply nonpositive_duration_points. cbn. lra.
Qed.

(** C8, amended: the call checks none of its numeric parameters and has no
    InvalidParameter failure; with recognised notes and a duration that is
    not positive it samples at most one point, builds no segment, and exports
    and returns the sphere of radius [tube_radius / 2], whatever the tube
    radius, the amplitudes and the number of cylinder sides are. *)
Theorem nonpositive_duration_exports_sphere (n1 n2 n3 : string)
    (wx wy wz : R) (kw : kwargs) (w : world) :
  get_note_frequency n1 = Some wx ->
  get_note_frequency n2 = Some wy ->
  get_note_frequency n3 = Some wz ->
  duration kw <= 0 ->
  (length (sample_points wx wy wz kw) <= 1)%nat /\
  build_segments (sample_points wx wy wz kw) (tube_radius kw)
                 (cylinder_segments kw) = [] /\
  create_lissajous_from_notes_3d n1 n2 n3 kw w
  = (Some (Trimesh.icosphere (tube_radius kw / 2)),
     World (stdout w ++ [MsgGenerating n1 wx n2 wy n3 wz; MsgNoSegments;
                         MsgSaved (output_filename kw)])
           ((output_filename kw, Trimesh.icosphere (tube_radius kw / 2))
            :: files w)).
Proof.
  intros H1 H2 H3 HD.
  pose proof (nonpositive_duration_points wx wy wz kw HD) as Hlen.
  assert (E : build_segments (sample_points wx wy wz kw) (tube_radius kw)
                (cylinder_segments kw) = []).
  { apply build_segments_empty. now left. }
  split; [lia | split; [exact E |]].
  rewrite (create_recognised n1 n2 n3 wx wy wz) by assumption.
  now rewrite E.
Qed.

(** A duration of zero: one sample, at [t = 0], and the sphere. *)
Lemma nonpositive_duration_exports_sphere_witness :
  duration zero_duration <= 0 /\
  create_lissajous_from_notes_3d "C4" "E4" "G4" zero_duration initial_world
  = (Some (Trimesh.icosphere (0.05 / 2)),
     World [MsgGenerating "C4" 261.63 "E4" 329.63 "G4" 392.00; MsgNoSegments;
            MsgSaved "lissajous_3d_custom_notes.stl"]
           [("lissajous_3d_custom_notes.stl", Trimesh.icosphere (0.05 / 2))]).
Proof.
  assert (HD : duration zero_duration <= 0) by (cbn; lra).
  split; [exact HD |].
  exact (proj2 (proj2 (nonpositive_duration_exports_sphere "C4" "E4" "G4"
                         261.63 329.63 392.00 zero_duration initial_world
                         eq_refl eq_refl eq_refl HD))).
Defined.

(** C9: when one of the three names is not found, the call returns [None],
    not a mesh, prints the error line that lists the valid note names, the
    keys of the table, and writes no file. *)
Theorem unknown_note_fails (n1 n2 n3 : string) (kw : kwargs) (w : world) :
  get_note_frequency n1 = None \/
  get_note_frequency n2 = None \/
  get_note_frequency n3 = None ->
  create_lissajous_from_notes_3d n1 n2 n3 kw w
  = (None,
     World (stdout w ++ [MsgInvalidNotes (dict_keys NOTE_FREQUENCIES)])
           (files w)) /\
  dict_keys NOTE_FREQUENCIES
  = ["C4"; "C#4"; "Db4"; "D4"; "D#4"; "Eb4"; "E4"; "F4"; "F#4"; "Gb4";
     "G4"; "G#4"; "Ab4"; "A4"; "A#4"; "Bb4"; "B4"; "C5"; "D5"; "E5"; "F5";
     "G5"; "A5"; "B5"]%string.
Proof.
  intros H. split; [| reflexivity].
  unfold create_lissajous_from_notes_3d.
  destruct (get_note_frequency n1) as [w1|];
    destruct (get_note_frequency n2) as [w2|];
    destruct (get_note_frequency n3) as [w3|];
    try reflexivity.
  destruct H as [H | [H | H]]; discriminate.
Qed.

(** The German name H4 of the note B4 is not in the table. *)
Lemma unknown_note_fails_witness :
  get_note_frequency "H4" = None /\
  create_lissajous_from_notes_3d "C4" "H4" "G4" defaults initial_world
  = (None, World [MsgInvalidNotes (dict_keys NOTE_FREQUENCIES)] []).
Proof.
  split; [reflexivity |].
  exact (proj1 (unknown_note_fails "C4" "H4" "G4" defaults initial_world
                  (or_intror (or_introl eq_refl)))).
Defined.

(** C3, at a segment along +Z: in the call with the notes C4, C4, C4 and
    the X and Y amplitudes zero, the first segment runs from the origin to
    [(0, 0, h)] with [h >= 1e-6]; its direction is [from_v] itself, the
    [arccos] is taken of the dot product 1 as it is and gives the angle 0,
    the cross product is the zero vector, whose normalisation is undefined:
    the transform given to the cylinder has no rotation block, where the
    specification has the identity rotation.  The segment from [(0, 0, 0)]
    to [(0, 0, 5)] has the same transform. *)
Theorem parallel_segment_rotation_undefined :
  let points := sample_points 261.63 261.63 261.63 vertical_up in
  let h := sin (2 * PI * 261.63 * (INR 1 * step_size) + 0) in
  get_note_frequency "C4" = Some 261.63 /\
  point_at points 0 = (0, 0, 0) /\
  point_at points 1 = (0, 0, h) /\
  1e-6 <= h /\
  Np.div (Np.sub (0, 0, h) (0, 0, 0)) (Np.norm (Np.sub (0, 0, h) (0, 0, 0)))
  = from_v /\
  Np.arccos (Np.dot from_v from_v) = Some 0 /\
  Np.cross from_v from_v = (0, 0, 0) /\
  Trimesh.rotation_matrix 0 (0, 0, 0) = None /\
  segment_transform (0, 0, 0) (0, 0, h) = None /\
  segment_transform (0, 0, 0) (0, 0, 5) = None /\
  exists meshes,
    fst (create_lissajous_from_notes_3d "C4" "C4" "C4" vertical_up
           initial_world)
    = Some (Trimesh.concatenate meshes) /\
    In (Trimesh.apply_transform (Trimesh.cylinder 0.05 h 16) None) meshes.
Proof.
  intros points h.
  assert (Hh : 1e-6 <= h) by (apply first_step_sin; lra).
  destruct (vertical_first_points 261.63 261.63 261.63 vertical_up)
    as [H0 H1]; try reflexivity.
  cbn [amplitude_z vertical_up] in H1. rewrite Rmult_1_l in H1.
  fold points in H0, H1. fold h in H1.
  assert (Hn : Np.norm (Np.sub (0, 0, h) (0, 0, 0)) = h).
  { unfold Np.norm, Np.sub, Np.dot.
    replace (_ + _ + _) with (h * h) by ring. apply sqrt_square. lra. }
  repeat split; try assumption; try reflexivity.
  - rewrite Hn. unfold Np.sub, Np.div, from_v.
    f_equal; [f_equal |]; field; lra.
  - unfold Np.arccos, Np.dot, from_v.
    replace (0 * 0 + 0 * 0 + 1 * 1) with 1 by ring.
    destruct (Rle_dec (-1) 1); [| lra]. destruct (Rle_dec 1 1); [| lra].
    now rewrite acos_1.
  - unfold Np.cross, from_v. f_equal; [f_equal |]; ring.
  - unfold Trimesh.rotation_matrix, Trimesh.unit_vector, Np.dot.
    destruct (Req_dec_T _ _) as [_ | Hne]; [reflexivity |].
    exfalso. apply Hne.
    replace (0 * 0 + 0 * 0 + 0 * 0) with 0 by ring. apply sqrt_0.
  - apply segment_transform_vertical.
  - apply segment_transform_vertical.
  - pose proof (vertical_first_segment 261.63 261.63 261.63 vertical_up h)
      as Hin.
    cbn [tube_radius cylinder_segments vertical_up] in Hin.
    rewrite (Rabs_pos_eq h) in Hin by lra.
    specialize (Hin eq_refl eq_refl eq_refl eq_refl Hh).
    cbn [amplitude_z vertical_up] in Hin. rewrite Rmult_1_l in Hin.
    specialize (Hin eq_refl).
    rewrite (create_recognised "C4" "C4" "C4" 261.63 261.63 261.63)
      by reflexivity.
    cbn [tube_radius cylinder_segments vertical_up].
    destruct (build_segments _ _ _) as [|m ms] eqn:E; [destruct Hin |].
    eexists. split; [reflexivity | exact Hin].
Qed.

(** C4, at a segment along -Z: in the call with the notes C4, C4, C4, the X
    and Y amplitudes zero and the Z amplitude -1, the first segment runs from
    the origin to [(0, 0, -h)] with [h >= 1e-6]; its direction is
    [(0, 0, -1)], the angle is [pi], and the axis given to the library is the
    cross product, the zero vector, not a vector perpendicular to
    [(0, 0, 1)]: its normalisation is undefined and the cylinder gets no
    rotation.  The segment from [(0, 0, 5)] to [(0, 0, 0)] has the same
    transform. *)
Theorem antiparallel_segment_rotation_undefined :
  let points := sample_points 261.63 261.63 261.63 vertical_down in
  let h := sin (2 * PI * 261.63 * (INR 1 * step_size) + 0) in
  point_at points 0 = (0, 0, 0) /\
  point_at points 1 = (0, 0, - h) /\
  1e-6 <= h /\
  Np.div (Np.sub (0, 0, - h) (0, 0, 0))
         (Np.norm (Np.sub (0, 0, - h) (0, 0, 0)))
  = (0, 0, -1) /\
  Np.arccos (Np.dot from_v (0, 0, -1)) = Some PI /\
  Np.cross from_v (0, 0, -1) = (0, 0, 0) /\
  Trimesh.rotation_matrix PI (0, 0, 0) = None /\
  segment_transform (0, 0, 0) (0, 0, - h) = None /\
  segment_transform (0, 0, 5) (0, 0, 0) = None /\
  exists meshes,
    fst (create_lissajous_from_notes_3d "C4" "C4" "C4" vertical_down
           initial_world)
    = Some (Trimesh.concatenate meshes) /\
    In (Trimesh.apply_transform (Trimesh.cylinder 0.05 h 16) None) meshes.
Proof.
  intros points h.
  assert (Hh : 1e-6 <= h) by (apply first_step_sin; lra).
  destruct (vertical_first_points 261.63 261.63 261.63 vertical_down)
    as [H0 H1]; try reflexivity.
  cbn [amplitude_z vertical_down] in H1.
  replace (-1 * _) with (- h) in H1 by (unfold h; ring).
  fold points in H0, H1.
  assert (Hn : Np.norm (Np.sub (0, 0, - h) (0, 0, 0)) = h).
  { unfold Np.norm, Np.sub, Np.dot.
    replace (_ + _ + _) with (h * h) by ring. apply sqrt_square. lra. }
  repeat split; try assumption; try reflexivity.
  - rewrite Hn. unfold Np.sub, Np.div.
    f_equal; [f_equal |]; field; lra.
  - unfold Np.arccos, Np.dot, from_v.
    replace (0 * 0 + 0 * 0 + 1 * -1) with (- (1)) by ring.
    destruct (Rle_dec (-1) (- (1))); [| lra].
    destruct (Rle_dec (- (1)) 1); [| lra].
    rewrite acos_opp, acos_1. f_equal. ring.
  - unfold Np.cross, from_v. f_equal; [f_equal |]; ring.
  - unfold Trimesh.rotation_matrix, Trimesh.unit_vector, Np.dot.
    destruct (Req_dec_T _ _) as [_ | Hne]; [reflexivity |].
    exfalso. apply Hne.
    replace (0 * 0 + 0 * 0 + 0 * 0) with 0 by ring. apply sqrt_0.
  - apply segment_transform_vertical.
  - apply segment_transform_vertical.
  - pose proof (vertical_first_segment 261.63 261.63 261.63 vertical_down
                  (- h)) as Hin.
    cbn [tube_radius cylinder_segments vertical_down] in Hin.
    rewrite Rabs_Ropp, (Rabs_pos_eq h) in Hin by lra.
    specialize (Hin eq_refl eq_refl eq_refl eq_refl Hh).
    cbn [amplitude_z vertical_down] in Hin.
    assert (Hz : -1 * sin (2 * PI * 261.63 * (INR 1 * step_size) + 0) = - h)
      by (unfold h; ring).
    specialize (Hin Hz).
    rewrite (create_recognised "C4" "C4" "C4" 261.63 261.63 261.63)
      by reflexivity.
    cbn [tube_radius cylinder_segments vertical_down].
    destruct (build_segments _ _ _) as [|m ms] eqn:E; [destruct Hin |].
    eexists. split; [reflexivity | exact Hin].
Qed.

(** C6, on a curve along the Z axis: in the call with the notes C4, E4, G4
    and the X and Y amplitudes zero, segments are built, none of them
    degenerate, and the transform of every one of them has an undefined
    rotation block: none is a rigid matrix that maps the Z axis to the
    direction of its segment. *)
Theorem vertical_curve_transforms_undefined :
  exists meshes,
    fst (create_lissajous_from_notes_3d "C4" "E4" "G4" vertical_up
           initial_world)
    = Some (Trimesh.concatenate meshes) /\
    meshes <> [] /\
    forall m, In m meshes ->
      exists h, 1e-6 <= h /\
        m = Trimesh.apply_transform (Trimesh.cylinder 0.05 h 16) None.
Proof.
  set (h := sin (2 * PI * 392.00 * (INR 1 * step_size) + 0)).
  assert (Hh : 1e-6 <= h) by (apply first_step_sin; lra).
  pose proof (vertical_first_segment 261.63 329.63 392.00 vertical_up h)
    as Hin.
  rewrite (Rabs_pos_eq h) in Hin by lra.
  specialize (Hin eq_refl eq_refl eq_refl eq_refl Hh).
  cbn [amplitude_z vertical_up] in Hin. rewrite Rmult_1_l in Hin.
  specialize (Hin eq_refl).
  rewrite (create_recognised "C4" "E4" "G4" 261.63 329.63 392.00)
    by reflexivity.
  pose proof (fun m =>
    vertical_curve_meshes 261.63 329.63 392.00 vertical_up m
      eq_refl eq_refl) as Hall.
  cbn [tube_radius cylinder_segments vertical_up] in *.
  destruct (build_segments _ _ _) as [|m ms] eqn:E; [destruct Hin |].
  eexists. split; [reflexivity | split; [discriminate | exact Hall]].
Qed.

End Pipeline.

(** ** The prompt, examples *)

Example prompt_sharp :
  Prompt.prompt_note "  c#4 " = (Some "C#4"%string, []).
Proof. reflexivity. Qed.

Example prompt_flat :
  Prompt.prompt_note "Db4" = (None, [Prompt.MsgNotRecognised "Db4"]).
Proof. reflexivity. Qed.

Example prompt_c_flat :
  Prompt.prompt_note "Cb4" = (Some "B4"%string, []).
Proof. reflexivity. Qed.

Example prompt_no_octave :
  Prompt.prompt_note "C" = (None, [Prompt.MsgNotRecognised "C"]).
Proof. reflexivity. Qed.

Example read_three_notes :
  Prompt.read_notes ["C4"; "x"; "E4"; "G4"; "0.05"]%string
  = (Some (["C4"; "E4"; "G4"]%string, ["0.05"%string]),
     [Prompt.AskNote 1; Prompt.AskNote 2; Prompt.MsgNotRecognised "x";
      Prompt.AskNote 2; Prompt.AskNote 3]).
Proof. reflexivity. Qed.

(** ** More on the note lookup *)

Section NoteLookupMore.

Local Open Scope string_scope.

Lemma upper_char_idem (c : ascii) :
  PyStr.upper_char (PyStr.upper_char c) = PyStr.upper_char c.
Proof. destruct c as [[] [] [] [] [] [] [] []]; reflexivity. Qed.

Lemma upper_idem (s : string) : PyStr.upper (PyStr.upper s) = PyStr.upper s.
Proof.
  induction s as [|c s IH]; [reflexivity |].
  cbn [PyStr.upper]. now rewrite upper_char_idem, IH.
Qed.

(** A lookup finds a value of the table. *)
Lemma dict_get_In {V : Type} (d : list (string * V)) (k : string) (v : V) :
  dict_get d k = Some v -> In (k, v) d.
Proof.
  induction d as [|[k' v'] d IH]; [discriminate |].
  cbn [dict_get]. destruct (String.eqb_spec k' k) as [-> | _].
  - intros [= ->]. now left.
  - intros H. right. now apply IH.
Qed.

(** A key of a dict is found. *)
Lemma In_dict_get {V : Type} (d : list (string * V)) (k : string) (v : V) :
  In (k, v) d -> exists v', dict_get d k = Some v'.
Proof.
  induction d as [|[k' v'] d IH]; [intros [] |].
  cbn [dict_get In]. destruct (String.eqb_spec k' k) as [-> | Hne];
    [eauto |].
  intros [[= E _] | H]; [contradiction | now apply IH].
Qed.

(** Every name of the table is found under itself. *)
Lemma lookup_key (k : string) (v : R) :
  In (k, v) NOTE_FREQUENCIES -> get_note_frequency k = Some v.
Proof.
  unfold NOTE_FREQUENCIES. cbn [In]. intros H.
  repeat (destruct H as [[= <- <-] | H]; [reflexivity |]).
  destruct H.
Qed.

(** The lookup is a round trip on the table: each of its 24 names, the flat
    spellings too, is found with its own frequency. *)
Theorem table_names_found :
  Forall (fun kv => get_note_frequency (fst kv) = Some (snd kv))
         NOTE_FREQUENCIES.
Proof.
  apply Forall_forall. intros [k v] H. now apply lookup_key.
Qed.

(** The lookup does not depend on the letter case of the name. *)
Theorem lookup_ignores_case (s1 s2 : string) :
  PyStr.upper s1 = PyStr.upper s2 ->
  get_note_frequency s1 = get_note_frequency s2 /\
  get_note_frequency (PyStr.upper s1) = get_note_frequency s1.
Proof.
  intros H. unfold get_note_frequency, normalize.
  now rewrite upper_idem, H.
Qed.

Lemma lookup_ignores_case_witness :
  get_note_frequency "ab4" = get_note_frequency "AB4" /\
  get_note_frequency "AB4" = Some 415.30%R.
Proof.
  destruct (lookup_ignores_case "ab4" "AB4" eq_refl) as [H _].
  split; [exact H | reflexivity].
Defined.

(** A frequency that the lookup returns is a value of the table, between
    261.63 Hz and 987.77 Hz: the sampler never gets a frequency that is zero
    or negative from it. *)
Theorem found_frequency_in_range (s : string) (v : R) :
  get_note_frequency s = Some v ->
  In v (map snd NOTE_FREQUENCIES) /\ (261.63 <= v <= 987.77)%R.
Proof.
  intros H. apply dict_get_In in H.
  split; [apply (in_map snd) in H; exact H |].
  unfold NOTE_FREQUENCIES in H. cbn [In] in H.
  repeat (destruct H as [[= _ <-] | H]; [lra |]).
  destruct H.
Qed.

Lemma found_frequency_in_range_witness :
  get_note_frequency "a4" = Some 440.00%R /\
  In 440.00%R (map snd NOTE_FREQUENCIES) /\
  (261.63 <= 440.00 <= 987.77)%R.
Proof.
  split; [reflexivity |].
  exact (found_frequency_in_range "a4" 440.00%R eq_refl).
Defined.

Lemma replace_single (a b c : ascii) (new : string) :
  PyStr.replace (String a (String b "")) new (String c "") = String c "".
Proof.
  unfold PyStr.replace. cbn [PyStr.replace_from PyStr.startswith].
  now rewrite andb_false_r.
Qed.

(** A name of fewer than two characters, the empty name too, is not
    found: a note needs its octave. *)
Theorem short_name_not_found (s : string) :
  (String.length s < 2)%nat -> get_note_frequency s = None.
Proof.
  intros H. destruct s as [|c [|c' s]]; [reflexivity | | cbn in H; lia].
  unfold get_note_frequency, normalize. cbn [PyStr.upper].
  rewrite !replace_single. cbn [fix_accidental].
  destruct (dict_get NOTE_FREQUENCIES _) as [v|] eqn:E; [| reflexivity].
  apply dict_get_In in E. unfold NOTE_FREQUENCIES in E. cbn [In] in E.
  repeat (destruct E as [[= ] | E]; []).
  destruct E.
Qed.

Lemma short_name_not_found_witness :
  get_note_frequency "C" = None /\ get_note_frequency "" = None.
Proof.
  split;
    [exact (short_name_not_found "C" (Nat.lt_succ_diag_r 1))
    | reflexivity].
Defined.

End NoteLookupMore.

(** ** The note prompt *)

Section NotePrompt.

Local Open Scope string_scope.

Lemma no_lower_upper (s : string) : no_lower (PyStr.upper s).
Proof.
  induction s as [|c s IH]; cbn [PyStr.upper no_lower]; [exact I |].
  split; [| exact IH].
  destruct c as [[] [] [] [] [] [] [] []]; reflexivity.
Qed.

Lemma no_lower_app (s1 s2 : string) :
  no_lower s1 -> no_lower s2 -> no_lower (s1 ++ s2).
Proof.
  induction s1 as [|c s1 IH]; cbn [append no_lower]; [tauto |].
  intros [Hc H1] H2. split; [exact Hc | now apply IH].
Qed.

Lemma no_lower_replace_from (old new : string) (skip : nat) (s : string) :
  no_lower new -> no_lower s ->
  no_lower (PyStr.replace_from old new skip s).
Proof.
  intros Hnew. revert skip.
  induction s as [|c s IH]; intros skip Hs; [exact I |].
  destruct Hs as [Hc Hs]. cbn [PyStr.replace_from].
  destruct skip as [|k]; [| now apply IH].
  destruct (PyStr.startswith old (String c s)).
  - apply no_lower_app; [exact Hnew | now apply IH].
  - split; [exact Hc | now apply IH].
Qed.

(** The normalised input has no lower-case letter. *)
Lemma no_lower_normalize_input (s : string) :
  no_lower (Prompt.normalize_input s).
Proof.
  unfold Prompt.normalize_input, PyStr.replace.
  repeat (apply no_lower_replace_from; [cbn; tauto |]).
  apply no_lower_upper.
Qed.

Lemma dict_mem_In (k : string) :
  Prompt.dict_mem NOTE_FREQUENCIES k = true ->
  In k (dict_keys NOTE_FREQUENCIES).
Proof.
  unfold Prompt.dict_mem.
  destruct (dict_get NOTE_FREQUENCIES k) as [v|] eqn:E; [| discriminate].
  intros _. apply dict_get_In in E.
  apply (in_map fst) in E. exact E.
Qed.

(** A name of the table without a lower-case letter is not a flat name. *)
Lemma key_no_lower (k : string) :
  In k (dict_keys NOTE_FREQUENCIES) -> no_lower k -> In k sharp_names.
Proof.
  unfold dict_keys, NOTE_FREQUENCIES, sharp_names. cbn [map fst In].
  intros H Hl.
  repeat (destruct H as [<- | H];
          [first [ tauto
                 | exfalso; cbn in Hl; decompose [and] Hl; discriminate ] |]).
  destruct H.
Qed.

(** The names that are tried when the normalised input is not a key of the
    table are never found: the loop over the keys compares their upper-case
    forms with a two-character name that is not a key. *)
Lemma find_upper_key_none (n : string) :
  String.length n = 2%nat ->
  Prompt.dict_mem NOTE_FREQUENCIES n = false ->
  find (fun key => String.eqb (PyStr.upper key) n)
       (dict_keys NOTE_FREQUENCIES) = None.
Proof.
  intros Hlen Hmem.
  destruct (find _ _) as [key|] eqn:E; [exfalso | reflexivity].
  apply find_some in E. destruct E as [Hin Heq].
  apply String.eqb_eq in Heq. subst n.
  unfold dict_keys, NOTE_FREQUENCIES in Hin. cbn [map fst In] in Hin.
  repeat (destruct Hin as [<- | Hin]; [lazy in Hlen, Hmem; congruence |]).
  destruct Hin.
Qed.

(** What one turn of the prompt does with a line. *)
Lemma prompt_note_cases (line : string) :
  let note_input := Prompt.strip line in
  let n := Prompt.normalize_input note_input in
  Prompt.prompt_note line
  = if andb (andb (1 <? String.length n)%nat
                  (match Prompt.last_char n with
                   | Some c => Prompt.isdigit c
                   | None => false
                   end))
            (Prompt.dict_mem NOTE_FREQUENCIES n)
    then (Some n, [])
    else (None, [Prompt.MsgNotRecognised note_input]).
Proof.
  intros note_input n. unfold Prompt.prompt_note.
  fold note_input. fold n.
  destruct (1 <? String.length n)%nat eqn:Hlen; [| reflexivity].
  destruct (match Prompt.last_char n with
            | Some c => Prompt.isdigit c
            | None => false
            end); [| reflexivity].
  cbn [andb].
  destruct (Prompt.dict_mem NOTE_FREQUENCIES n) eqn:Hmem; [reflexivity |].
  apply Nat.ltb_lt in Hlen.
  destruct (String.length n =? 1)%nat eqn:H1;
    [apply Nat.eqb_eq in H1; lia |].
  cbn [andb].
  destruct (String.length n =? 2)%nat eqn:H2; [| reflexivity].
  apply Nat.eqb_eq in H2. rewrite (find_upper_key_none n H2 Hmem).
  cbn [andb]. destruct n as [|c0 [|c1 r]]; try reflexivity.
  destruct (andb _ _); reflexivity.
Qed.

(** A line is accepted exactly when its stripped and normalised form has at
    least two characters, ends with a digit and is a key of the table, and the
    note is then that form; the two further branches of the prompt, the
    default octave and the search among the upper-cased keys, never accept a
    line. *)
Theorem prompt_accepts_table_names_only (line note : string)
    (out : list Prompt.prompt_message) :
  Prompt.prompt_note line = (Some note, out) <->
  note = Prompt.normalize_input (Prompt.strip line) /\
  out = [] /\
  (2 <= String.length note)%nat /\
  (exists c, Prompt.last_char note = Some c /\ Prompt.isdigit c = true) /\
  In note (dict_keys NOTE_FREQUENCIES).
Proof.
  pose proof (prompt_note_cases line) as Hc. cbn zeta in Hc. rewrite Hc.
  set (n := Prompt.normalize_input (Prompt.strip line)).
  destruct (1 <? String.length n)%nat eqn:Hlen; cbn [andb].
  2:{ apply Nat.ltb_ge in Hlen. split; [discriminate |].
      intros (-> & _ & H & _). lia. }
  apply Nat.ltb_lt in Hlen.
  destruct (Prompt.last_char n) as [c|] eqn:Hlast.
  2:{ cbn [andb]. split; [discriminate |].
      intros (-> & _ & _ & (c & Hc' & _) & _). congruence. }
  destruct (Prompt.isdigit c) eqn:Hdig; cbn [andb].
  2:{ split; [discriminate |].
      intros (-> & _ & _ & (c' & Hc' & Hd) & _). congruence. }
  destruct (Prompt.dict_mem NOTE_FREQUENCIES n) eqn:Hmem.
  - split.
    + intros [= <- <-]. repeat split; [lia | eauto | now apply dict_mem_In].
    + intros (-> & -> & _). reflexivity.
  - split; [discriminate |].
    intros (-> & _ & _ & _ & Hin). exfalso.
    unfold dict_keys in Hin. apply in_map_iff in Hin.
    destruct Hin as ([k v] & Hk & Hin). cbn [fst] in Hk. subst k.
    apply In_dict_get in Hin. destruct Hin as [v' Hv].
    unfold Prompt.dict_mem in Hmem. rewrite Hv in Hmem. discriminate.
Qed.

(** The line C#4 with blanks around it and in lower case is accepted. *)
Lemma prompt_accepts_table_names_only_witness :
  Prompt.prompt_note "  c#4 " = (Some "C#4", []) /\
  In "C#4" (dict_keys NOTE_FREQUENCIES).
Proof.
  split; [reflexivity |].
  apply (proj1 (prompt_accepts_table_names_only "  c#4 " "C#4" []) eq_refl).
Defined.

(** What the prompt accepts. *)
Lemma prompt_note_accepted (line note : string)
    (out : list Prompt.prompt_message) :
  Prompt.prompt_note line = (Some note, out) ->
  In note sharp_names /\ out = [].
Proof.
  pose proof (prompt_note_cases line) as Hc. cbn zeta in Hc. rewrite Hc.
  destruct (andb _ _) eqn:E; [| discriminate].
  intros [= <- <-]. split; [| reflexivity].
  apply andb_prop in E. destruct E as [_ Hmem].
  apply key_no_lower; [now apply dict_mem_In |].
  apply no_lower_normalize_input.
Qed.

(** A note that the prompt returns is one of the 19 names of the table
    without a flat sign, and the lookup of the core finds it, with the
    frequency the table has for it. *)
Theorem prompted_note_is_found (line note : string)
    (out : list Prompt.prompt_message) :
  Prompt.prompt_note line = (Some note, out) ->
  In note sharp_names /\
  exists v, get_note_frequency note = Some v /\
            dict_get NOTE_FREQUENCIES note = Some v.
Proof.
  intros H. apply prompt_note_accepted in H. destruct H as [Hin _].
  split; [exact Hin |].
  unfold sharp_names in Hin. cbn [In] in Hin.
  repeat (destruct Hin as [<- | Hin];
          [eexists; split; reflexivity |]).
  destruct Hin.
Qed.

Lemma prompted_note_is_found_witness :
  exists v, get_note_frequency "F5" = Some v /\
            dict_get NOTE_FREQUENCIES "F5" = Some v.
Proof.
  exact (proj2 (prompted_note_is_found "e#5" "F5" [] eq_refl)).
Defined.

(** The prompt rejects the five flat names of the table, in any letter case
    and with blanks around them, although the lookup of the core finds
    them. *)
Theorem prompt_rejects_flat_names (line : string) :
  In (PyStr.upper (Prompt.strip line)) flat_names_upper ->
  Prompt.prompt_note line
  = (None, [Prompt.MsgNotRecognised (Prompt.strip line)]) /\
  exists v, get_note_frequency (Prompt.strip line) = Some v.
Proof.
  unfold flat_names_upper. cbn [In]. intros H.
  unfold Prompt.prompt_note, Prompt.normalize_input, get_note_frequency,
    normalize.
  repeat (destruct H as [<- | H];
          [split; [reflexivity | eexists; reflexivity] |]).
  destruct H.
Qed.

(** The line Bb4, as the greeting of the program proposes it. *)
Lemma prompt_rejects_flat_names_witness :
  Prompt.prompt_note "Bb4" = (None, [Prompt.MsgNotRecognised "Bb4"]) /\
  get_note_frequency "Bb4" = Some 466.16%R.
Proof.
  split; [| reflexivity].
  apply (prompt_rejects_flat_names "Bb4"). cbn. tauto.
Defined.

(** The note a loop returns was accepted by the prompt. *)
Lemma read_note_accepted (i : nat) (stdin rest : list string) (note : string)
    (out : list Prompt.prompt_message) :
  Prompt.read_note i stdin = (Some (note, rest), out) ->
  In note sharp_names.
Proof.
  revert out. induction stdin as [|line stdin IH]; intros out;
    cbn [Prompt.read_note]; [discriminate |].
  destruct (Prompt.prompt_note line) as [[n|] o] eqn:E.
  - intros [= <- _ _]. apply prompt_note_accepted in E. tauto.
  - destruct (Prompt.read_note i stdin) as [r o'] eqn:E'.
    intros [= -> _]. eapply IH. reflexivity.
Qed.

(** When the three loops of the prompt end, they hand three names to
    [create_lissajous_from_notes_3d] that it recognises: called with them it
    never prints the list of valid notes and never returns [None], whatever
    the other arguments are; it exports and returns a mesh. *)
Theorem prompted_notes_are_recognised (stdin rest : list string)
    (notes : list string) (out : list Prompt.prompt_message) :
  Prompt.read_notes stdin = (Some (notes, rest), out) ->
  exists n1 n2 n3, notes = [n1; n2; n3] /\
    forall (kw : kwargs) (w : world),
    exists m msgs,
      create_lissajous_from_notes_3d n1 n2 n3 kw w
      = (Some m, World (stdout w ++ msgs)
                       ((output_filename kw, m) :: files w)).
Proof.
  unfold Prompt.read_notes.
  destruct (Prompt.read_note 1 stdin) as [[[n1 s1]|] o1] eqn:E1;
    [| discriminate].
  destruct (Prompt.read_note 2 s1) as [[[n2 s2]|] o2] eqn:E2;
    [| discriminate].
  destruct (Prompt.read_note 3 s2) as [[[n3 s3]|] o3] eqn:E3;
    [| discriminate].
  intros [= <- _ _]. exists n1, n2, n3. split; [reflexivity |].
  intros kw w.
  apply read_note_accepted in E1, E2, E3.
  assert (Hfound : forall n, In n sharp_names ->
            exists v, get_note_frequency n = Some v).
  { intros n Hin. unfold sharp_names in Hin. cbn [In] in Hin.
    repeat (destruct Hin as [<- | Hin]; [eexists; reflexivity |]).
    destruct Hin. }
  destruct (Hfound n1 E1) as [v1 H1], (Hfound n2 E2) as [v2 H2],
    (Hfound n3 E3) as [v3 H3].
  rewrite (create_recognised n1 n2 n3 v1 v2 v3 kw w H1 H2 H3).
  destruct (build_segments _ _ _); eexists _, _; reflexivity.
Qed.

(** Three notes, the second after a line that is refused. *)
Lemma prompted_notes_are_recognised_witness :
  Prompt.read_notes ["C4"; "x"; "E4"; "G4"; "0.05"]
  = (Some (["C4"; "E4"; "G4"], ["0.05"]),
     [Prompt.AskNote 1; Prompt.AskNote 2; Prompt.MsgNotRecognised "x";
      Prompt.AskNote 2; Prompt.AskNote 3]) /\
  exists n1 n2 n3, ["C4"; "E4"; "G4"] = [n1; n2; n3] /\
    forall (kw : kwargs) (w : world),
    exists m msgs,
      create_lissajous_from_notes_3d n1 n2 n3 kw w
      = (Some m, World (stdout w ++ msgs)
                       ((output_filename kw, m) :: files w)).
Proof.
  split; [reflexivity |].
  exact (prompted_notes_are_recognised
           ["C4"; "x"; "E4"; "G4"; "0.05"] ["0.05"] ["C4"; "E4"; "G4"] _
           eq_refl).
Defined.

(** The loop for one note skips the lines the prompt refuses, returns the
    note of the first line it accepts and leaves the lines after it unread. *)
Theorem read_note_takes_first_accepted (i : nat) (stdin rest : list string)
    (note : string) (out : list Prompt.prompt_message) :
  Prompt.read_note i stdin = (Some (note, rest), out) ->
  exists refused line,
    stdin = (refused ++ line :: rest)%list /\
    Forall (fun l => fst (Prompt.prompt_note l) = None) refused /\
    fst (Prompt.prompt_note line) = Some note /\
    length (filter (fun m => match m with
                             | Prompt.AskNote _ => true
                             | _ => false
                             end) out)
    = S (length refused).
Proof.
  revert out. induction stdin as [|l stdin IH]; intros out;
    cbn [Prompt.read_note]; [discriminate |].
  destruct (Prompt.prompt_note l) as [[n|] o] eqn:E.
  - intros [= <- <- <-]. exists [], l. cbn [app]. rewrite E.
    apply prompt_note_accepted in E. destruct E as [_ ->].
    repeat split; constructor.
  - destruct (Prompt.read_note i stdin) as [r o'] eqn:E'.
    intros [= -> <-].
    destruct (IH o' eq_refl) as (refused & line & -> & Hall & Hline & Hask).
    exists (l :: refused), line.
    split; [reflexivity |]. split; [| split; [exact Hline |]].
    + constructor; [now rewrite E | exact Hall].
    + pose proof (prompt_note_cases l) as Hc. cbn zeta in Hc.
      rewrite Hc in E. destruct (andb _ _); [discriminate |].
      injection E as <-.
      cbn [app filter length]. now rewrite Hask.
Qed.

(** Two refused lines, then A4. *)
Lemma read_note_takes_first_accepted_witness :
  Prompt.read_note 1 ["Db4"; "la"; "a4"; "E4"]
  = (Some ("A4", ["E4"]),
     [Prompt.AskNote 1; Prompt.MsgNotRecognised "Db4";
      Prompt.AskNote 1; Prompt.MsgNotRecognised "la"; Prompt.AskNote 1]) /\
  exists refused line,
    ["Db4"; "la"; "a4"; "E4"] = (refused ++ line :: ["E4"])%list /\
    Forall (fun l => fst (Prompt.prompt_note l) = None) refused /\
    fst (Prompt.prompt_note line) = Some "A4" /\
    length (filter (fun m => match m with
                             | Prompt.AskNote _ => true
                             | _ => false
                             end)
              [Prompt.AskNote 1; Prompt.MsgNotRecognised "Db4";
               Prompt.AskNote 1; Prompt.MsgNotRecognised "la";
               Prompt.AskNote 1])
    = S (length refused).
Proof.
  split; [reflexivity |].
  exact (read_note_takes_first_accepted 1 ["Db4"; "la"; "a4"; "E4"] ["E4"]
           "A4" _ eq_refl).
Defined.

End NotePrompt.

(** ** More on the sampler *)

Section SamplerMore.

(** The sampling times are the multiples [0, 1/44100, 2/44100, ...] of the
    step, in order, and none is later than half a step after the duration:
    the last sample can lie after the end of the curve, by less than half a
    step. *)
Theorem sample_times_in_range (D : R) :
  sample_times D
  = map (fun i => INR i * step_size) (seq 0 (length (sample_times D))) /\
  Forall (fun t => 0 <= t < D + step_size / 2) (sample_times D).
Proof.
  split.
  - unfold sample_times, Np.arange. rewrite length_map, length_seq.
    apply map_ext. intros i. lra.
  - unfold sample_times, Np.arange. apply Forall_forall. intros t Ht.
    apply in_map_iff in Ht. destruct Ht as (i & <- & Hi).
    apply in_seq in Hi.
    set (x := (D + step_size / 2 - 0.0) / step_size) in *.
    assert (Hs : 0 < step_size) by (unfold step_size, sample_rate; lra).
    assert (Hx : x * step_size = D + step_size / 2).
    { unfold x, step_size, sample_rate. lra. }
    destruct (ceil_spec x) as [Hc _].
    assert (Hi' : (Z.of_nat i <= Np.ceil x - 1)%Z) by lia.
    apply IZR_le in Hi'. rewrite minus_IZR, <- INR_IZR_INZ in Hi'.
    pose proof (pos_INR i) as Hpos.
    split; [nra |].
    assert (INR i < x) by lra. nra.
Qed.

(** A duration of a whole number [k] of steps gives [k + 1] samples, the
    last one at the end of the duration: the end point is included. *)
Theorem whole_steps_include_endpoint (D : R) (k : nat) :
  D * 44100 = INR k ->
  length (sample_times D) = S k /\ last (sample_times D) 0 = D.
Proof.
  intros Hk. unfold sample_times, Np.arange.
  assert (Hx : (D + step_size / 2 - 0.0) / step_size = INR k + 1 / 2).
  { rewrite <- Hk. unfold step_size, sample_rate. lra. }
  rewrite Hx.
  rewrite (ceil_unique _ (Z.of_nat (S k))).
  2:{ rewrite <- INR_IZR_INZ, S_INR. lra. }
  rewrite Nat2Z.id, length_map, length_seq. split; [reflexivity |].
  rewrite seq_S, map_app. cbn [map Nat.add]. rewrite last_last.
  unfold step_size, sample_rate. lra.
Qed.

(** A hundredth of a second: 442 samples, the last at 0.01 s. *)
Lemma whole_steps_include_endpoint_witness :
  length (sample_times 0.01) = 442%nat /\ last (sample_times 0.01) 0 = 0.01.
Proof.
  apply (whole_steps_include_endpoint 0.01 441).
  rewrite INR_IZR_INZ. cbn [Z.of_nat Pos.of_succ_nat Pos.succ]. lra.
Defined.

Lemma Rabs_sin_le_1 (x : R) : Rabs (sin x) <= 1.
Proof. apply Rabs_le. apply SIN_bound. Qed.

(** Every sampled point lies in the box of the three amplitudes. *)
Theorem points_within_amplitudes (wx wy wz : R) (kw : kwargs) :
  Forall (fun p : vec3 =>
            let '(x, y, z) := p in
            Rabs x <= Rabs (amplitude_x kw) /\
            Rabs y <= Rabs (amplitude_y kw) /\
            Rabs z <= Rabs (amplitude_z kw))
         (sample_points wx wy wz kw).
Proof.
  rewrite sample_points_map. apply Forall_forall. intros p Hp.
  apply in_map_iff in Hp. destruct Hp as (t & <- & _).
  rewrite !Rabs_mult.
  pose proof (Rabs_pos (amplitude_x kw)).
  pose proof (Rabs_pos (amplitude_y kw)).
  pose proof (Rabs_pos (amplitude_z kw)).
  pose proof (Rabs_sin_le_1 (2 * PI * wx * t + phase_x kw)).
  pose proof (Rabs_sin_le_1 (2 * PI * wy * t + phase_y kw)).
  pose proof (Rabs_sin_le_1 (2 * PI * wz * t + phase_z kw)).
  repeat split; nra.
Qed.

End SamplerMore.

(** ** More on the segments and on the call *)

Section PipelineMore.

(** A segment that is neither degenerate nor along the Z axis, from the
    origin to [(3, 0, 4)]. *)
Lemma segment_transform_rigid_witness :
  distance (0, 0, 0) (3, 0, 4) = 5 /\
  exists M, segment_transform (0, 0, 0) (3, 0, 4) = Some M /\
    Np.row3 M = (0, 0, 0, 1) /\
    Np.col3 M = Np.div (Np.add (0, 0, 0) (3, 0, 4)) 2 /\
    Np.mat3_mul (Np.transpose3 (Np.block33 M)) (Np.block33 M) = Np.eye3 /\
    Np.det3 (Np.block33 M) = 1 /\
    Np.mat3_mul_vec (Np.block33 M) from_v
    = Np.div (Np.sub (3, 0, 4) (0, 0, 0)) (distance (0, 0, 0) (3, 0, 4)) /\
    Trimesh.transform_point M (0, 0, - (distance (0, 0, 0) (3, 0, 4) / 2))
    = (0, 0, 0) /\
    Trimesh.transform_point M (0, 0, distance (0, 0, 0) (3, 0, 4) / 2)
    = (3, 0, 4).
Proof.
  assert (Hd : distance (0, 0, 0) (3, 0, 4) = 5).
  { unfold distance. replace (_ + _ + _) with (5 * 5) by ring.
    apply sqrt_square. lra. }
  split; [exact Hd |].
  apply (segment_transform_rigid (0, 0, 0) (3, 0, 4)).
  - rewrite Hd. lra.
  - left. cbn [fst snd]. lra.
Defined.

Lemma segment_angle_defined_witness :
  exists angle,
    Np.arccos
      (Np.dot from_v
         (Np.div (Np.sub (3, 0, 4) (0, 0, 0))
                 (Np.norm (Np.sub (3, 0, 4) (0, 0, 0)))))
    = Some angle /\ 0 <= angle <= PI.
Proof.
  apply (segment_angle_defined (0, 0, 0) (3, 0, 4)).
  unfold distance. replace (_ + _ + _) with (5 * 5) by ring.
  rewrite sqrt_square; lra.
Defined.

Lemma build_segments_length (points : list vec3) (r : R) (n : Z) :
  length (build_segments points r n)
  = (length points - 1 - degenerate_count points)%nat.
Proof.
  rewrite build_segments_filter, length_map. unfold degenerate_count.
  pose proof (filter_negb_length (degenerate points)
                (seq 0 (length points - 1))) as H.
  rewrite length_seq in H. lia.
Qed.

(** The library is never asked for a cylinder shorter than [1e-6]: every
    mesh of the collection is a transformed cylinder of the tube radius, of
    the given number of sides and of a height of at least [1e-6]. *)
Theorem requested_cylinders (points : list vec3) (r : R) (n : Z) :
  Forall (fun m => exists h T,
            m = Trimesh.apply_transform (Trimesh.cylinder r h n) T /\
            1e-6 <= h)
         (build_segments points r n).
Proof.
  apply Forall_forall. intros m Hm.
  apply build_segments_In in Hm. destruct Hm as (i & _ & Hd & ->).
  eexists _, _. split; [reflexivity | exact Hd].
Qed.

(** With recognised notes the mesh returned is the concatenation, in the
    order of the curve, of one transformed cylinder for each consecutive pair
    of points that is not closer than [1e-6], of the tube radius and of the
    height of the distance of the pair; there are [len(points) - 1] minus
    the number of closer pairs of them; when there is none the mesh is the
    sphere of radius [tube_radius / 2]. *)
Theorem returned_mesh_cylinders_or_sphere (n1 n2 n3 : string)
    (wx wy wz : R) (kw : kwargs) (w : world) :
  get_note_frequency n1 = Some wx ->
  get_note_frequency n2 = Some wy ->
  get_note_frequency n3 = Some wz ->
  let points := sample_points wx wy wz kw in
  let pairs :=
    filter (fun i => negb (degenerate points i))
           (seq 0 (length points - 1)) in
  let cylinders :=
    map (fun i =>
           Trimesh.apply_transform
             (Trimesh.cylinder (tube_radius kw)
                (distance (point_at points i) (point_at points (i + 1)))
                (cylinder_segments kw))
             (segment_transform (point_at points i)
                                (point_at points (i + 1))))
        pairs in
  fst (create_lissajous_from_notes_3d n1 n2 n3 kw w)
  = Some (match pairs with
          | [] => Trimesh.icosphere (tube_radius kw / 2)
          | _ :: _ => Trimesh.concatenate cylinders
          end) /\
  length pairs = (length points - 1 - degenerate_count points)%nat /\
  Forall (fun i => (i < length points - 1)%nat /\
                   1e-6 <= distance (point_at points i)
                                    (point_at points (i + 1)))
         pairs.
Proof.
  intros H1 H2 H3 points pairs cylinders.
  rewrite (create_recognised n1 n2 n3 wx wy wz kw w H1 H2 H3).
  fold points. rewrite build_segments_filter. fold pairs.
  change (map (segment_mesh points (tube_radius kw) (cylinder_segments kw))
              pairs) with cylinders.
  split; [| split].
  - unfold cylinders. destruct pairs; reflexivity.
  - pose proof (build_segments_length points (tube_radius kw)
                  (cylinder_segments kw)) as Hlen.
    rewrite build_segments_filter, length_map in Hlen. exact Hlen.
  - apply Forall_forall. intros i Hi. unfold pairs in Hi.
    apply filter_In in Hi. destruct Hi as [Hi Hd].
    apply in_seq in Hi. split; [lia |].
    unfold degenerate in Hd. destruct (Rlt_dec _ _); [discriminate | lra].
Qed.

(** A distance is at least the difference of the first coordinates. *)
Lemma distance_ge_x (p q : vec3) :
  fst (fst q) - fst (fst p) <= distance p q.
Proof.
  destruct p as [[px py] pz], q as [[qx qy] qz]. cbn [fst snd].
  unfold distance.
  apply Rle_trans with (Rabs (qx - px)); [apply Rle_abs |].
  rewrite <- sqrt_Rsqr_abs. apply sqrt_le_1_alt. unfold Rsqr.
  pose proof (pow2_ge_0 (qy - py)). pose proof (pow2_ge_0 (qz - pz)). nra.
Qed.

(** A call with two samples: the mesh is one cylinder, from the first point
    to the second. *)
Lemma returned_mesh_cylinders_or_sphere_witness :
  let points := sample_points 261.63 329.63 392.00 two_samples in
  length points = 2%nat /\
  fst (create_lissajous_from_notes_3d "C4" "E4" "G4" two_samples
         initial_world)
  = Some (Trimesh.concatenate
            [Trimesh.apply_transform
               (Trimesh.cylinder 0.05
                  (distance (point_at points 0) (point_at points 1)) 16)
               (segment_transform (point_at points 0) (point_at points 1))]).
Proof.
  intros points.
  assert (Hlen : length points = 2%nat).
  { unfold points. rewrite sample_points_length. cbn [duration two_samples].
    rewrite (ceil_unique _ 2); [reflexivity | lra]. }
  split; [exact Hlen |].
  destruct (returned_mesh_cylinders_or_sphere "C4" "E4" "G4"
              261.63 329.63 392.00 two_samples initial_world
              eq_refl eq_refl eq_refl) as (H & _).
  fold points in H. rewrite H, Hlen. cbn [Nat.sub seq filter].
  assert (Hd : degenerate points 0 = false).
  { unfold degenerate. destruct (Rlt_dec _ _) as [Hlt |]; [| reflexivity].
    exfalso.
    pose proof (distance_ge_x (point_at points 0) (point_at points (0 + 1)))
      as Hx.
    assert (E0 : fst (fst (point_at points 0)) = 0).
    { unfold points. rewrite point_at_sample by (fold points; lia).
      cbn [fst snd amplitude_x phase_x two_samples INR].
      replace (2 * PI * 261.63 * (0 * step_size) + 0) with 0 by ring.
      rewrite sin_0. ring. }
    assert (E1 : fst (fst (point_at points (0 + 1)))
                 = sin (2 * PI * 261.63 * (INR 1 * step_size) + 0)).
    { unfold points. rewrite point_at_sample by (fold points; lia).
      cbn [fst snd amplitude_x phase_x two_samples Nat.add]. ring. }
    rewrite E0, E1 in Hx.
    pose proof (first_step_sin 261.63) as Hs.
    lra. }
  rewrite Hd. cbn [negb map]. reflexivity.
Defined.

(** With the three amplitudes zero every point is the origin, whatever the
    notes, the duration and the phases are: no segment is built and the call
    exports and returns the sphere. *)
Theorem zero_amplitudes_give_sphere (n1 n2 n3 : string) (wx wy wz : R)
    (kw : kwargs) (w : world) :
  get_note_frequency n1 = Some wx ->
  get_note_frequency n2 = Some wy ->
  get_note_frequency n3 = Some wz ->
  amplitude_x kw = 0 -> amplitude_y kw = 0 -> amplitude_z kw = 0 ->
  Forall (fun p => p = (0, 0, 0)) (sample_points wx wy wz kw) /\
  create_lissajous_from_notes_3d n1 n2 n3 kw w
  = (Some (Trimesh.icosphere (tube_radius kw / 2)),
     World (stdout w ++ [MsgGenerating n1 wx n2 wy n3 wz; MsgNoSegments;
                         MsgSaved (output_filename kw)])
           ((output_filename kw, Trimesh.icosphere (tube_radius kw / 2))
            :: files w)).
Proof.
  intros H1 H2 H3 Hx Hy Hz.
  assert (Hall : Forall (fun p => p = (0, 0, 0)) (sample_points wx wy wz kw)).
  { rewrite sample_points_map, Hx, Hy, Hz. apply Forall_forall.
    intros p Hp. apply in_map_iff in Hp. destruct Hp as (t & <- & _).
    now rewrite !Rmult_0_l. }
  split; [exact Hall |].
  rewrite (create_recognised n1 n2 n3 wx wy wz kw w H1 H2 H3).
  rewrite build_segments_empty; [reflexivity |].
  right. intros i Hi. rewrite Forall_forall in Hall.
  set (points := sample_points wx wy wz kw) in *.
  unfold point_at.
  rewrite (Hall (nth i points (0, 0, 0))) by (apply nth_In; lia).
  rewrite (Hall (nth (i + 1) points (0, 0, 0))) by (apply nth_In; lia).
  unfold distance. replace (_ + _ + _) with 0 by ring.
  rewrite sqrt_0. lra.
Qed.

(** The default call with the three amplitudes zero. *)
Lemma zero_amplitudes_give_sphere_witness :
  fst (create_lissajous_from_notes_3d "C4" "E4" "G4"
         (Kwargs 0.05 0 0 0 0 0 0 0.05 16 "out.stl") initial_world)
  = Some (Trimesh.icosphere (0.05 / 2)).
Proof.
  destruct (zero_amplitudes_give_sphere "C4" "E4" "G4" 261.63 329.63 392.00
              (Kwargs 0.05 0 0 0 0 0 0 0.05 16 "out.stl") initial_world
              eq_refl eq_refl eq_refl eq_refl eq_refl eq_refl) as [_ H].
  rewrite H. reflexivity.
Defined.

End PipelineMore.
